(** * python_action.clang_tidy: parsing the standard output of clang-tidy

    A shallow embedding of [src/python_action/clang_tidy.py] and the proofs
    of its specification.

    - A Python [str] is a [string], a character being a code point below
      256; the character classes of [re], [str.strip] and [int] are the
      interpreter's on that range.
    - A Python [int] is a [Z].
    - A raised exception is a value: [result] for [__init__], [outcome] for
      the pass, which also leaves a heap behind.
    - [TidyNotification] objects are mutable and are shared between the
      local variable [notification] and the list [GlobalParser.tidy_notes]:
      they live in an object store and are named by their address.
    - [GlobalParser] is declared outside [clang_tidy.py]; what its list
      holds when a pass starts is the heap given to [parse_tidy_output].
    - The lines of clang_tidy_report.txt, as [readlines] returns them, are
      an argument of [parse_tidy_output]; [sys.platform] and [os.getcwd()]
      are the fields of [Env]. *)

From Stdlib Require Import ZArith Ascii Bool Lia.
From stdpp Require Import base option list strings.

Local Open Scope Z_scope.

(** ** Strings *)

Module Str.

Definition newline : ascii := "010"%char.

Definition code (c : ascii) : N := N_of_ascii c.

Fixpoint length (s : string) : nat :=
  match s with
  | "" => 0%nat
  | String _ s' => S (length s')
  end.

Fixpoint drop (n : nat) (s : string) : string :=
  match n, s with
  | O, _ => s
  | S _, "" => ""
  | S n', String _ s' => drop n' s'
  end.

(** [s.startswith(p)] *)
Fixpoint startswith (s p : string) : bool :=
  match p, s with
  | "", _ => true
  | String _ _, "" => false
  | String a p', String b s' => Ascii.eqb a b && startswith s' p'
  end.

(** [all(p(c) for c in s)] *)
Fixpoint all (p : ascii -> bool) (s : string) : bool :=
  match s with
  | "" => true
  | String a s' => p a && all p s'
  end.

(** [c in s] for a single character *)
Fixpoint mem (c : ascii) (s : string) : bool :=
  match s with
  | "" => false
  | String a s' => Ascii.eqb a c || mem c s'
  end.

(** Number of occurrences of a character: [s.count(c)] *)
Fixpoint count (c : ascii) (s : string) : nat :=
  match s with
  | "" => 0%nat
  | String a s' => ((if Ascii.eqb a c then 1 else 0) + count c s')%nat
  end.

(** [p in s]: [p] occurs in [s] as a substring *)
Fixpoint contains (p s : string) : bool :=
  startswith s p ||
  match s with
  | "" => false
  | String _ s' => contains p s'
  end.

(** [s[:-1]] *)
Fixpoint but_last (s : string) : string :=
  match s with
  | "" => ""
  | String _ "" => ""
  | String a s' => String a (but_last s')
  end.

(** [s[1:]] *)
Definition tail (s : string) : string :=
  match s with
  | "" => ""
  | String _ s' => s'
  end.

(** [s[1:-1]] *)
Definition slice_1_m1 (s : string) : string := but_last (tail s).

(** [str.isspace] on one character, which is also what [str.strip()]
    removes: the ASCII controls 9..13 and 28..31, the space, NEL and the
    no-break space. *)
Definition isspace (c : ascii) : bool :=
  let n := code c in
  ((9 <=? n) && (n <=? 13) || (28 <=? n) && (n <=? 32)
   || (n =? 133) || (n =? 160))%N.

Fixpoint lstrip_with (p : ascii -> bool) (s : string) : string :=
  match s with
  | "" => ""
  | String a s' => if p a then lstrip_with p s' else s
  end.

Fixpoint rstrip_with (p : ascii -> bool) (s : string) : string :=
  match s with
  | "" => ""
  | String a s' =>
      match rstrip_with p s' with
      | "" => if p a then "" else String a ""
      | r => String a r
      end
  end.

Definition strip_with (p : ascii -> bool) (s : string) : string :=
  rstrip_with p (lstrip_with p s).

(** [s.strip()] *)
Definition strip (s : string) : string := strip_with isspace s.

(** [s.split(sep)] for a one-character separator: never empty, and
    [count sep s + 1] fields. *)
Fixpoint split (sep : ascii) (s : string) : list string :=
  match s with
  | "" => [""]
  | String a s' =>
      if Ascii.eqb a sep then "" :: split sep s'
      else match split sep s' with
           | [] => [String a ""]
           | f :: fs => String a f :: fs
           end
  end.

(** [s.replace(old, new)]: the occurrences of [old] are found from left to
    right and do not overlap. [skip] counts the characters of a found
    occurrence still to be dropped. An empty [old] matches between any two
    characters and at both ends. *)
Fixpoint replace_go (old new : string) (skip : nat) (s : string) : string :=
  match s with
  | "" => ""
  | String a s' =>
      match skip with
      | S k => replace_go old new k s'
      | O =>
          if startswith s old
          then new +:+ replace_go old new (Nat.pred (length old)) s'
          else String a (replace_go old new O s')
      end
  end.

Fixpoint intersperse (new : string) (s : string) : string :=
  match s with
  | "" => new
  | String a s' => new +:+ String a (intersperse new s')
  end.

Definition replace (old new s : string) : string :=
  match old with
  | "" => intersperse new s
  | _ => replace_go old new O s
  end.

(** [s[:n]] for [n >= 0] *)
Fixpoint take (n : nat) (s : string) : string :=
  match n, s with
  | O, _ => ""
  | S _, "" => ""
  | S n', String a s' => String a (take n' s')
  end.

(** [s[i]], [None] out of range *)
Fixpoint get (i : nat) (s : string) : option ascii :=
  match s, i with
  | "", _ => None
  | String a _, O => Some a
  | String _ s', S i' => get i' s'
  end.

(** [s.rfind(c)] for one character: the highest index of [c] in [s], or
    [-1]. *)
Fixpoint rfind (c : ascii) (s : string) : Z :=
  match s with
  | "" => -1
  | String a s' =>
      let r := rfind c s' in
      if 0 <=? r then r + 1 else if Ascii.eqb a c then 0 else -1
  end.

(** [sep.join(l)] *)
Fixpoint join (sep : string) (l : list string) : string :=
  match l with
  | [] => ""
  | [x] => x
  | x :: rest => x +:+ sep +:+ join sep rest
  end.

(** *** [int(s)] and [str(n)] *)

(** What [int] skips at both ends: the C-locale [isspace] characters, and
    the two non-ASCII spaces, which CPython first rewrites to [' ']. *)
Definition int_space (c : ascii) : bool :=
  let n := code c in
  ((9 <=? n) && (n <=? 13) || (n =? 32) || (n =? 133) || (n =? 160))%N.

Definition isdecimal (c : ascii) : bool :=
  let n := code c in ((48 <=? n) && (n <=? 57))%N.

Definition digit_value (c : ascii) : Z := Z.of_N (code c) - 48.

(** Decimal digits, single underscores allowed between two digits.
    [prev] tells whether the previous character was a digit. *)
Fixpoint int_digits (acc : Z) (prev : bool) (s : string) : option Z :=
  match s with
  | "" => if prev then Some acc else None
  | String a s' =>
      if isdecimal a then int_digits (10 * acc + digit_value a) true s'
      else if Ascii.eqb a "_" then
             if prev then int_digits acc false s' else None
      else None
  end.

(** [int(s)] in base 10: white space at both ends, a sign, digits. [None]
    stands for [ValueError]. The interpreter's optional limit on the number
    of digits is not modelled. *)
Definition int (s : string) : option Z :=
  match strip_with int_space s with
  | String "+" ds => int_digits 0 false ds
  | String "-" ds => Z.opp <$> int_digits 0 false ds
  | ds => int_digits 0 false ds
  end.

(** The limit that [int] leaves out: [sys.get_int_max_str_digits()], 4300
    unless the interpreter was configured otherwise (CPython 3.11 and later).
    A text with more digits makes the interpreter raise [ValueError]; a
    property that concludes that a conversion succeeds bounds the digits
    by it. *)
Definition int_max_str_digits : nat := 4300.

Definition digit_char (d : Z) : ascii := ascii_of_N (Z.to_N (48 + d)).

(** The digits of [n] in front of [acc], the last one first; [fuel] bounds
    the number of digits after the first. *)
Fixpoint digits_go (fuel : nat) (n : Z) (acc : string) : string :=
  let acc' := String (digit_char (n mod 10)) acc in
  match fuel with
  | O => acc'
  | S fuel' => if n <? 10 then acc' else digits_go fuel' (n / 10) acc'
  end.

(** The decimal digits of [n >= 0]; a number has no more digits than bits. *)
Definition digits (n : Z) : string := digits_go (Z.to_nat (Z.log2 n)) n "".

(** [str(n)] for an [int]: decimal, a minus sign for negatives. *)
Definition of_int (n : Z) : string :=
  if n <? 0 then String "-" (digits (- n)) else digits n.

(** *** [template.format] with automatic fields

    The replacement field [{}] and the doubled braces are modelled, not the
    numbered or named fields nor the format specifications; [None] stands
    for the [IndexError] of a missing argument and the [ValueError] of a
    lone brace. The arguments are already rendered, and what they contain is
    not scanned again. *)
Fixpoint format (template : string) (args : list string) : option string :=
  match template with
  | "" => Some ""
  | String "{" (String "}" t) =>
      match args with
      | [] => None
      | a :: args' => (fun r => a +:+ r) <$> format t args'
      end
  | String "{" (String "{" t) => String "{" <$> format t args
  | String "}" (String "}" t) => String "}" <$> format t args
  | String "{" _ => None
  | String "}" _ => None
  | String a t => String a <$> format t args
  end.

End Str.

(** ** Regular expressions

    The two patterns of the module are built from character classes,
    concatenation and repetition. [Regex.lang] is the set of strings a
    pattern matches; [Regex.matches] decides it by derivatives. *)

Module Regex.

Inductive regex : Type :=
| Void
| Eps
| Class (p : ascii -> bool)
| Seq (r1 r2 : regex)
| Alt (r1 r2 : regex)
| Star (r : regex).

Definition Plus (r : regex) : regex := Seq r (Star r).
Definition Chr (c : ascii) : regex := Class (Ascii.eqb c).

Inductive lang : regex -> string -> Prop :=
| lang_eps : lang Eps ""
| lang_class p c : p c = true -> lang (Class p) (String c "")
| lang_seq r1 r2 s1 s2 : lang r1 s1 -> lang r2 s2 -> lang (Seq r1 r2) (s1 +:+ s2)
| lang_alt_l r1 r2 s : lang r1 s -> lang (Alt r1 r2) s
| lang_alt_r r1 r2 s : lang r2 s -> lang (Alt r1 r2) s
| lang_star_nil r : lang (Star r) ""
| lang_star_app r s1 s2 : lang r s1 -> lang (Star r) s2 -> lang (Star r) (s1 +:+ s2).

Fixpoint nullable (r : regex) : bool :=
  match r with
  | Void => false
  | Eps => true
  | Class _ => false
  | Seq r1 r2 => nullable r1 && nullable r2
  | Alt r1 r2 => nullable r1 || nullable r2
  | Star _ => true
  end.

Fixpoint deriv (c : ascii) (r : regex) : regex :=
  match r with
  | Void => Void
  | Eps => Void
  | Class p => if p c then Eps else Void
  | Seq r1 r2 =>
      if nullable r1 then Alt (Seq (deriv c r1) r2) (deriv c r2)
      else Seq (deriv c r1) r2
  | Alt r1 r2 => Alt (deriv c r1) (deriv c r2)
  | Star r1 => Seq (deriv c r1) (Star r1)
  end.

Fixpoint matches (r : regex) (s : string) : bool :=
  match s with
  | "" => nullable r
  | String c s' => matches (deriv c r) s'
  end.

(** *** Character classes of [re] on [str] patterns *)

(** [.] without [re.DOTALL]: anything but a newline *)
Definition dot : ascii -> bool := fun c => negb (Ascii.eqb c Str.newline).

(** [\d]: a decimal digit *)
Definition digit : ascii -> bool := Str.isdecimal.

(** [\s]: what [str.isspace] accepts *)
Definition space : ascii -> bool := Str.isspace.

(** [\w]: alphanumeric or underscore; above 127 these are the Latin-1
    letters and the numeric characters (superscripts and fractions). *)
Definition word (c : ascii) : bool :=
  let n := Str.code c in
  ((48 <=? n) && (n <=? 57) || (65 <=? n) && (n <=? 90) || (n =? 95)
   || (97 <=? n) && (n <=? 122)
   || (n =? 170) || (n =? 178) || (n =? 179) || (n =? 181)
   || (n =? 185) || (n =? 186) || (188 <=? n) && (n <=? 190)
   || (192 <=? n) && (n <=? 214) || (216 <=? n) && (n <=? 246)
   || (248 <=? n) && (n <=? 255))%N.

(** *** [re.search] with a pattern of the form [^body$]

    Without [re.MULTILINE], [^] anchors the match at the start of the
    string and [$] at its end or just before a newline that ends it. *)
Fixpoint chomp (s : string) : option string :=
  match s with
  | "" => None
  | String c "" => if Ascii.eqb c Str.newline then Some "" else None
  | String c s' => String c <$> chomp s'
  end.

Definition search_anchored (body : regex) (s : string) : bool :=
  matches body s ||
  match chomp s with
  | Some s' => matches body s'
  | None => false
  end.

(** *** [re.search("\[.*\]", s).group(0)]

    The matcher tries the start positions from left to right. At a [[],
    the greedy [.*] takes every character up to the next newline and gives
    them back one by one until a []] follows. *)
Fixpoint dots_then_rbracket (s : string) : option string :=
  match s with
  | "" => None
  | String c s' =>
      let here := if Ascii.eqb c "]" then Some "]" else None in
      if dot c then
        match dots_then_rbracket s' with
        | Some m => Some (String c m)
        | None => here
        end
      else here
  end.

Definition bracket_at (s : string) : option string :=
  match s with
  | String "[" s' => String "[" <$> dots_then_rbracket s'
  | _ => None
  end.

Fixpoint search_bracket (s : string) : option string :=
  match bracket_at s with
  | Some m => Some m
  | None =>
      match s with
      | "" => None
      | String _ s' => search_bracket s'
      end
  end.

(** The same pattern as a [regex]: ["\[.*\]"] *)
Definition bracket_re : regex :=
  Seq (Chr "[") (Seq (Star (Class dot)) (Chr "]")).

End Regex.

(** ** Exceptions *)

Inductive exn : Type :=
| ValueError
| AttributeError.

Inductive result (A : Type) : Type :=
| Ok (a : A)
| Raise (e : exn).
Arguments Ok {A} a.
Arguments Raise {A} e.

Definition bind {A B} (m : result A) (k : A -> result B) : result B :=
  match m with
  | Ok a => k a
  | Raise e => Raise e
  end.

Notation "x <- m ;; k" := (bind m (fun x => k))
  (at level 100, m at next level, right associativity).

(** What the interpreter raises where the library function has no value *)
Definition or_raise {A} (e : exn) (o : option A) : result A :=
  match o with
  | Some a => Ok a
  | None => Raise e
  end.

(** ** The process environment: [sys.platform], [os.getcwd()], [os.sep] *)

Record Env : Type := mkEnv {
  sys_platform : string;
  os_getcwd : string
}.

Definition is_win32 (env : Env) : bool := Str.startswith (sys_platform env) "win32".

(** [os.sep] is the separator of [ntpath] on win32 and of [posixpath]
    elsewhere. *)
Definition os_sep (env : Env) : string := if is_win32 env then "\" else "/".

(** ** class TidyNotification *)

Record TidyNotification : Type := mkTidyNotification {
  diagnostic : string;
  filename : string;
  line : Z;
  cols : Z;
  note_type : string;
  note_info : string;
  fixit_lines : list string
}.

Definition append_fixit_line (l : string) (n : TidyNotification) : TidyNotification :=
  {| diagnostic := diagnostic n; filename := filename n; line := line n;
     cols := cols n; note_type := note_type n; note_info := note_info n;
     fixit_lines := fixit_lines n ++ [l] |}.

Definition with_fixit_lines (ls : list string) (n : TidyNotification) : TidyNotification :=
  {| diagnostic := diagnostic n; filename := filename n; line := line n;
     cols := cols n; note_type := note_type n; note_info := note_info n;
     fixit_lines := ls |}.

(** Lines 28-32 of [__init__]: the split at [":"], and the first two items
    joined again on win32 when there are more than five (so that items 0
    and 1 exist). *)
Definition sliced_line (env : Env) (notification_line : string) : list string :=
  let sliced_line := Str.split ":" notification_line in
  if is_win32 env && (5 <? length sliced_line)%nat then
    [nth 0 sliced_line "" +:+ ":" +:+ nth 1 sliced_line ""] ++ drop 2 sliced_line
  else sliced_line.

(** [TidyNotification.__init__]. Unpacking anything but five items raises
    [ValueError]; [.group] of a failed search raises [AttributeError];
    [int] of a non-number raises [ValueError]. *)
Definition TidyNotification_init (env : Env) (notification_line : string)
  : result TidyNotification :=
  match sliced_line env notification_line with
  | [filename; line; cols; note_type; note_info] =>
      diagnostic <- or_raise AttributeError (Regex.search_bracket note_info) ;;
      let note_info := Str.strip (Str.replace diagnostic "" note_info) in
      let diagnostic := Str.slice_1_m1 diagnostic in
      let note_type := Str.strip note_type in
      line <- or_raise ValueError (Str.int line) ;;
      cols <- or_raise ValueError (Str.int cols) ;;
      let filename := Str.replace (os_getcwd env +:+ os_sep env) "" filename in
      Ok {| diagnostic := diagnostic; filename := filename; line := line;
            cols := cols; note_type := note_type; note_info := note_info;
            fixit_lines := [] |}
  | _ => Raise ValueError
  end.

(** [TidyNotification.log_command] *)
Definition log_command_template : string :=
  "::{} file={},line={},title={}:{}:{} [{}]::{}".

Definition log_command_args (self : TidyNotification) : list string :=
  [ if Str.startswith (note_type self) "note" then "notice" else note_type self;
    filename self;
    Str.of_int (line self);
    filename self;
    Str.of_int (line self);
    Str.of_int (cols self);
    diagnostic self;
    note_info self ].

Definition log_command (self : TidyNotification) : string :=
  default "" (Str.format log_command_template (log_command_args self)).

(** ** parse_tidy_output *)

(** The pattern of line 93: ["^.*:\d+:\d+:\s\w+:.*\[.*\]$"], without its
    anchors. *)
Definition header_body : Regex.regex :=
  let any := Regex.Star (Regex.Class Regex.dot) in
  let colon := Regex.Chr ":" in
  let number := Regex.Plus (Regex.Class Regex.digit) in
  Regex.Seq any
   (Regex.Seq colon (Regex.Seq number
   (Regex.Seq colon (Regex.Seq number
   (Regex.Seq colon (Regex.Seq (Regex.Class Regex.space)
   (Regex.Seq (Regex.Plus (Regex.Class Regex.word))
   (Regex.Seq colon (Regex.Seq any
   (Regex.Seq (Regex.Chr "[") (Regex.Seq any (Regex.Chr "]")))))))))))).

(** [re.search("^.*:\d+:\d+:\s\w+:.*\[.*\]$", line) is not None] *)
Definition is_header (l : string) : bool := Regex.search_anchored header_body l.

(** The interpreter's objects: [objects] is the store of the
    [TidyNotification] instances, an address being an index into it;
    [tidy_notes] is the list [GlobalParser.tidy_notes], which holds
    addresses. *)
Record Heap : Type := mkHeap {
  objects : list TidyNotification;
  tidy_notes : list nat
}.

(** [notification = TidyNotification(line)] followed by
    [GlobalParser.tidy_notes.append(notification)] *)
Definition new_notification (n : TidyNotification) (h : Heap) : Heap * nat :=
  let a := length (objects h) in
  ({| objects := objects h ++ [n]; tidy_notes := tidy_notes h ++ [a] |}, a).

(** [notification.fixit_lines.append(line)] *)
Definition fixit_append (a : nat) (l : string) (h : Heap) : Heap :=
  {| objects := alter (append_fixit_line l) a (objects h);
     tidy_notes := tidy_notes h |}.

(** How a call ends: it returns, or an exception leaves it; the heap is
    what the caller finds afterwards. *)
Inductive outcome : Type :=
| Returned (h : Heap)
| Raised (e : exn) (h : Heap).

(** The [for] loop of lines 92-97; [notification] is the local variable. *)
Fixpoint parse_loop (env : Env) (lines : list string) (notification : option nat)
    (h : Heap) : outcome :=
  match lines with
  | [] => Returned h
  | l :: rest =>
      if is_header l then
        match TidyNotification_init env l with
        | Raise e => Raised e h
        | Ok n =>
            let '(h', a) := new_notification n h in
            parse_loop env rest (Some a) h'
        end
      else
        match notification with
        | Some a => parse_loop env rest notification (fixit_append a l h)
        | None => parse_loop env rest notification h
        end
  end.

(** [parse_tidy_output()]; [tidy_out] is what [readlines()] returns for
    clang_tidy_report.txt. *)
Definition parse_tidy_output (env : Env) (tidy_out : list string) (h : Heap) : outcome :=
  parse_loop env tidy_out None h.

(** The records of [GlobalParser.tidy_notes], in order. *)
Definition notes (h : Heap) : list TidyNotification :=
  omap (fun a => objects h !! a) (tidy_notes h).

(** Every address in [tidy_notes] is allocated. *)
Definition heap_wf (h : Heap) : Prop :=
  Forall (fun a => (a < length (objects h))%nat) (tidy_notes h).

Definition outcome_heap (o : outcome) : Heap :=
  match o with
  | Returned h => h
  | Raised _ h => h
  end.

(** ** [os.path.splitext]

    [genericpath._splitext(p, sep, altsep, extsep)]: the extension starts
    at the last dot of [p], when that dot is behind the last separator and
    a character other than a dot stands between the two. *)

(** The [while] loop of [_splitext]: [true] when it runs to its end, every
    character from [filenameIndex] up to the last dot being a dot. *)
Fixpoint only_dots (p : string) (extsep : ascii) (filenameIndex : Z) (steps : nat)
  : bool :=
  match steps with
  | O => true
  | S k =>
      match Str.get (Z.to_nat filenameIndex) p with
      | Some a =>
          if Ascii.eqb a extsep then only_dots p extsep (filenameIndex + 1) k
          else false
      | None => false
      end
  end.

Definition splitext_generic (p : string) (sep : ascii) (altsep : option ascii)
    (extsep : ascii) : string * string :=
  let sepIndex := Str.rfind sep p in
  let sepIndex :=
    match altsep with
    | Some a => Z.max sepIndex (Str.rfind a p)
    | None => sepIndex
    end in
  let dotIndex := Str.rfind extsep p in
  if sepIndex <? dotIndex then
    if only_dots p extsep (sepIndex + 1) (Z.to_nat (dotIndex - (sepIndex + 1)))
    then (p, "")
    else (Str.take (Z.to_nat dotIndex) p, Str.drop (Z.to_nat dotIndex) p)
  else (p, "").

(** [os.path.splitext]: [ntpath] on win32, [posixpath] elsewhere. *)
Definition os_path_splitext (env : Env) (p : string) : string * string :=
  if is_win32 env then splitext_generic p "\" (Some "/"%char) "."
  else splitext_generic p "/" None ".".

(** ** [TidyNotification.__repr__] *)

Definition repr_template : string :=
  "<details open>
<summary><strong>{}:{}:{}:</strong> {}: [{}]

> {}
</summary><p>

```{}
{}```
</p>
</details>

".

Definition repr_args (env : Env) (self : TidyNotification) : list string :=
  [ filename self;
    Str.of_int (line self);
    Str.of_int (cols self);
    note_type self;
    diagnostic self;
    note_info self;
    (os_path_splitext env (filename self)).2;
    Str.join "" (fixit_lines self) ].

Definition repr (env : Env) (self : TidyNotification) : string :=
  default "" (Str.format repr_template (repr_args env self)).

(** ** print_fixits and the script *)

(** [print(a, b, c)] on the standard output, a string *)
Definition print (items : list string) (stdout : string) : string :=
  stdout +:+ Str.join " " items +:+ String Str.newline "".

(** [print_fixits()]: the loop over [GlobalParser.tidy_notes] *)
Definition print_fixits (env : Env) (h : Heap) (stdout : string) : string :=
  fold_left
    (fun out notification =>
       print [repr env notification]
         (print ["found"; Str.of_int (Z.of_nat (length (tidy_notes h))); "tidy_notes"]
            out))
    (notes h) stdout.

(** The script: [parse_tidy_output()] and then [print_fixits()], which an
    exception of the first keeps from running. *)
Definition main (env : Env) (tidy_out : list string) (h : Heap) : outcome * string :=
  match parse_tidy_output env tidy_out h with
  | Returned h1 => (Returned h1, print_fixits env h1 "")
  | Raised e h1 => (Raised e h1, "")
  end.

(** ** The input seen as blocks

    The header lines of the input, each with the lines that follow it up to
    the next header line, and before them the lines that precede the first
    header line. *)
Fixpoint split_blocks (lines : list string) : list string * list (string * list string) :=
  match lines with
  | [] => ([], [])
  | l :: rest =>
      let '(pre, blocks) := split_blocks rest in
      if is_header l then ([], (l, pre) :: blocks) else (l :: pre, blocks)
  end.

Definition block_lines (b : string * list string) : list string := b.1 :: b.2.

Definition unsplit_blocks (pre : list string) (blocks : list (string * list string))
  : list string :=
  pre ++ concat (block_lines <$> blocks).

Definition not_header (l : string) : Prop := is_header l = false.

Definition block_ok (b : string * list string) : Prop :=
  is_header b.1 = true /\ Forall not_header b.2.

(** The record [r] is the one built from the header of block [b], with the
    other lines of [b] as its [fixit_lines]. *)
Definition record_of_block (env : Env) (b : string * list string) (r : TidyNotification)
  : Prop :=
  TidyNotification_init env b.1 = Ok (with_fixit_lines [] r) /\ fixit_lines r = b.2.


(** The heap after the records [created] were allocated one after the other
    and their addresses appended to [tidy_notes]. *)
Definition extend (h : Heap) (created : list TidyNotification) : Heap :=
  {| objects := objects h ++ created;
     tidy_notes := tidy_notes h ++ seq (length (objects h)) (length created) |}.

(** What may follow the last character of a line that [readlines] returns *)
Definition is_eol (eol : string) : Prop := eol = "" \/ eol = String Str.newline "".

(** ** Sample environments *)

Definition linux : Env := {| sys_platform := "linux"; os_getcwd := "/w" |}.
Definition win : Env := {| sys_platform := "win32"; os_getcwd := "C:\w" |}.

(** [GlobalParser.tidy_notes] before anything was parsed *)
Definition empty_heap : Heap := {| objects := []; tidy_notes := [] |}.

(** A report of two diagnostics *)
Definition report1 : list string :=
  ["2 warnings generated.
"; "a.cpp:1:2: warning: m [c]
"; "  int x;
"; "  ^
"; "b.cpp:3:4: error: n [d]
"; "  y
"].

(** ** A header line from a record

    Follows the specification's words, not the code, which has no such
    function: the header shape
    [<path>:<line>:<col>: <severity>: <message> [<check-id>]] of its
    sections 4.1 and 6, filled with the fields of a record. *)
Definition header_of (r : TidyNotification) : string :=
  filename r +:+ ":" +:+ Str.of_int (line r) +:+ ":" +:+ Str.of_int (cols r)
  +:+ ": " +:+ note_type r +:+ ": " +:+ note_info r
  +:+ " [" +:+ diagnostic r +:+ "]".

(** A string is empty or starts with a character outside [p]. *)
Definition head_outside (p : ascii -> bool) (s : string) : Prop :=
  match s with
  | "" => True
  | String c _ => p c = false
  end.


(** The text has a [[], later a []], and no newline between the two: what
    the search of line 41 looks for. *)
Definition has_bracket_pair (s : string) : Prop :=
  exists a y b, s = a +:+ "[" +:+ y +:+ "]" +:+ b /\ Str.all Regex.dot y = true.


(** The characters of the two numbers and of the severity in the header
    pattern: [\d], [\s] or [\w]. *)
Definition header_word (c : ascii) : bool :=
  Regex.digit c || Regex.space c || Regex.word c.


(** * Proofs *)

(** ** Facts on strings *)

Section StrFacts.

Implicit Types (s t u : string) (c : ascii).

Lemma str_app_nil_l s : "" +:+ s = s.
Proof. reflexivity. Qed.

Lemma str_app_cons c s t : String c s +:+ t = String c (s +:+ t).
Proof. reflexivity. Qed.

Lemma str_app_nil_r s : s +:+ "" = s.
Proof. induction s as [|c s IH]; [reflexivity|]. rewrite str_app_cons, IH. reflexivity. Qed.

Lemma str_app_assoc s t u : (s +:+ t) +:+ u = s +:+ (t +:+ u).
Proof.
  induction s as [|c s IH]; [reflexivity|].
  rewrite !str_app_cons, IH. reflexivity.
Qed.

Lemma str_app_eq_nil s t : s +:+ t = "" -> s = "" /\ t = "".
Proof.
  destruct s; [rewrite str_app_nil_l; intros ->; split; reflexivity | discriminate].
Qed.

Lemma str_length_app s t : Str.length (s +:+ t) = (Str.length s + Str.length t)%nat.
Proof.
  induction s as [|c s IH]; [reflexivity|].
  rewrite str_app_cons. simpl. rewrite IH. reflexivity.
Qed.

Lemma str_app_inv_head s t u : s +:+ t = s +:+ u -> t = u.
Proof.
  induction s as [|c s IH]; [trivial|].
  rewrite !str_app_cons. intros [= H]. auto.
Qed.

End StrFacts.

(** Appends associated to the right, with the literal prefixes unfolded *)
Ltac str_norm :=
  repeat (rewrite str_app_assoc || rewrite str_app_cons
          || rewrite str_app_nil_l || rewrite str_app_nil_r).

(** ** The derivative matcher decides the language *)

Module RegexFacts.
Import Regex.

Lemma nullable_lang r : nullable r = true <-> lang r "".
Proof.
  split.
  - induction r as [| |p|r1 IH1 r2 IH2|r1 IH1 r2 IH2|r IH]; simpl; intros H;
      try discriminate.
    + constructor.
    + apply andb_true_iff in H as [H1 H2].
      change "" with ("" +:+ ""). constructor; auto.
    + apply orb_true_iff in H as [H|H]; [apply lang_alt_l | apply lang_alt_r]; auto.
    + constructor.
  - intros H. remember "" as s eqn:Es.
    induction H as [|p c Hp|r1 r2 s1 s2 H1 IH1 H2 IH2|r1 r2 s H IH|r1 r2 s H IH
                   |r|r s1 s2 H1 IH1 H2 IH2]; simpl; try reflexivity.
    + discriminate.
    + apply str_app_eq_nil in Es as [-> ->]. rewrite IH1, IH2; reflexivity.
    + rewrite IH by assumption. reflexivity.
    + rewrite IH by assumption. apply orb_true_r.
Qed.

Lemma deriv_sound c r : forall s, lang (deriv c r) s -> lang r (String c s).
Proof.
  induction r as [| |p|r1 IH1 r2 IH2|r1 IH1 r2 IH2|r IH]; simpl; intros s H.
  - inversion H.
  - inversion H.
  - destruct (p c) eqn:Hp; inversion H; subst. constructor. assumption.
  - destruct (nullable r1) eqn:Hn.
    + inversion H as [| | | ? ? ? H' | ? ? ? H' | |]; subst.
      * inversion H' as [| |? ? s1 s2 Ha Hb| | | |]; subst.
        rewrite <- str_app_cons. constructor; auto.
      * rewrite <- (str_app_nil_l (String c s)). constructor; auto.
        apply nullable_lang. assumption.
    + inversion H as [| |? ? s1 s2 Ha Hb| | | |]; subst.
      rewrite <- str_app_cons. constructor; auto.
  - inversion H; subst; [apply lang_alt_l | apply lang_alt_r]; auto.
  - inversion H as [| |? ? s1 s2 Ha Hb| | | |]; subst.
    rewrite <- str_app_cons. constructor; auto.
Qed.

Lemma deriv_complete c r t :
  lang r t -> forall s, t = String c s -> lang (deriv c r) s.
Proof.
  induction 1 as [|p d Hp|r1 r2 s1 s2 H1 IH1 H2 IH2|r1 r2 s0 H IH|r1 r2 s0 H IH
                 |r|r s1 s2 H1 IH1 H2 IH2]; intros s E; simpl.
  - discriminate.
  - injection E as -> <-. rewrite Hp. constructor.
  - destruct s1 as [|d s1].
    + rewrite str_app_nil_l in E. apply nullable_lang in H1. rewrite H1.
      apply lang_alt_r. auto.
    + rewrite str_app_cons in E. injection E as -> <-.
      destruct (nullable r1); [apply lang_alt_l|]; constructor; auto.
  - apply lang_alt_l; auto.
  - apply lang_alt_r; auto.
  - discriminate.
  - destruct s1 as [|d s1].
    + rewrite str_app_nil_l in E. apply (IH2 _ E).
    + rewrite str_app_cons in E. injection E as -> <-.
      constructor; auto.
Qed.

Theorem matches_lang r s : matches r s = true <-> lang r s.
Proof.
  revert r. induction s as [|c s IH]; intros r; simpl.
  - apply nullable_lang.
  - rewrite IH. split; [apply deriv_sound|].
    intros H. eapply deriv_complete; eauto.
Qed.

(** *** Building members of the languages *)

Lemma lang_star_class p s :
  (forall c, Str.mem c s = true -> p c = true) -> lang (Star (Class p)) s.
Proof.
  induction s as [|c s IH]; intros H; [constructor|].
  change (String c s) with (String c "" +:+ s). constructor.
  - constructor. apply H. simpl. rewrite Ascii.eqb_refl. reflexivity.
  - apply IH. intros d Hd. apply H. simpl. rewrite Hd. apply orb_true_r.
Qed.

Lemma lang_star_class_inv p s :
  lang (Star (Class p)) s -> forall c, Str.mem c s = true -> p c = true.
Proof.
  intros H. remember (Star (Class p)) as r eqn:Er.
  induction H as [| | | | | |r0 s1 s2 H1 IH1 H2 IH2]; try discriminate Er.
  - intros c Hc. discriminate Hc.
  - injection Er as ->. inversion H1; subst. rewrite str_app_cons, str_app_nil_l.
    intros d Hd. simpl in Hd. apply orb_true_iff in Hd as [Hd|Hd].
    + apply Ascii.eqb_eq in Hd. subst. assumption.
    + apply IH2; auto.
Qed.

Lemma lang_plus_class p c s :
  p c = true -> (forall d, Str.mem d s = true -> p d = true) ->
  lang (Plus (Class p)) (String c s).
Proof.
  intros Hc Hs. change (String c s) with (String c "" +:+ s).
  constructor; [constructor; assumption | apply lang_star_class; assumption].
Qed.

Lemma lang_plus_class_inv p s :
  lang (Plus (Class p)) s ->
  s <> "" /\ forall d, Str.mem d s = true -> p d = true.
Proof.
  intros H. inversion H as [| |? ? s1 s2 H1 H2| | | |]; subst.
  inversion H1; subst. rewrite str_app_cons, str_app_nil_l. split; [discriminate|].
  intros d Hd. simpl in Hd. apply orb_true_iff in Hd as [Hd|Hd].
  - apply Ascii.eqb_eq in Hd. subst. assumption.
  - eapply lang_star_class_inv; eauto.
Qed.

Lemma lang_chr c s : lang (Chr c) s <-> s = String c "".
Proof.
  split.
  - intros H. inversion H; subst. f_equal. symmetry. apply Ascii.eqb_eq. assumption.
  - intros ->. constructor. apply Ascii.eqb_refl.
Qed.

End RegexFacts.

(** ** Rendering *)

Lemma startswith_prefix s p : Str.startswith s p = true <-> exists t, s = p +:+ t.
Proof.
  revert s. induction p as [|a p IH]; intros s.
  - split; [intros _; exists s; reflexivity | destruct s; reflexivity].
  - destruct s as [|b s]; simpl.
    + split; [discriminate | intros [t Ht]; discriminate].
    + rewrite andb_true_iff, IH, Ascii.eqb_eq. split.
      * intros [-> [t ->]]. exists t. reflexivity.
      * intros [t Ht]. rewrite str_app_cons in Ht. injection Ht as -> ->. eauto.
Qed.

Lemma log_command_format (self : TidyNotification) :
  Str.format log_command_template (log_command_args self) =
  Some ("::" +:+ (if Str.startswith (note_type self) "note" then "notice"
                  else note_type self)
        +:+ " file=" +:+ filename self +:+ ",line=" +:+ Str.of_int (line self)
        +:+ ",title=" +:+ filename self +:+ ":" +:+ Str.of_int (line self)
        +:+ ":" +:+ Str.of_int (cols self)
        +:+ " [" +:+ diagnostic self +:+ "]::" +:+ note_info self).
Proof.
  unfold log_command_template, log_command_args. cbn [Str.format fmap option_fmap option_map].
  rewrite str_app_nil_r. reflexivity.
Qed.

(** C3: the log command of a record is
    [::<level> file=<filename>,line=<line>,title=<filename>:<line>:<col> [<check_id>]::<message>],
    the numbers in decimal, where the level is ["notice"] when the severity
    begins with ["note"] and the severity itself otherwise; the record of the
    specification's example renders as the specification says. *)
Theorem log_command_renders (self : TidyNotification) :
  (exists level,
     log_command self =
       "::" +:+ level +:+ " file=" +:+ filename self
       +:+ ",line=" +:+ Str.of_int (line self)
       +:+ ",title=" +:+ filename self +:+ ":" +:+ Str.of_int (line self)
       +:+ ":" +:+ Str.of_int (cols self)
       +:+ " [" +:+ diagnostic self +:+ "]::" +:+ note_info self
     /\ ((exists t, note_type self = "note" +:+ t) -> level = "notice")
     /\ (~ (exists t, note_type self = "note" +:+ t) -> level = note_type self))
  /\ log_command {| diagnostic := "c"; filename := "a.cpp"; line := 3; cols := 1;
                    note_type := "note"; note_info := "m"; fixit_lines := [] |}
     = "::notice file=a.cpp,line=3,title=a.cpp:3:1 [c]::m"
  /\ log_command {| diagnostic := "c"; filename := "a.cpp"; line := 3; cols := 1;
                    note_type := "warning"; note_info := "m"; fixit_lines := [] |}
     = "::warning file=a.cpp,line=3,title=a.cpp:3:1 [c]::m".
Proof.
  split; [|split; reflexivity].
  exists (if Str.startswith (note_type self) "note" then "notice" else note_type self).
  split.
  - unfold log_command. rewrite log_command_format. reflexivity.
  - destruct (Str.startswith (note_type self) "note") eqn:E.
    + split; [reflexivity|]. intros H. exfalso. apply H.
      apply startswith_prefix. assumption.
    + split; [|reflexivity]. intros H. apply startswith_prefix in H. congruence.
Qed.

Lemma log_command_renders_witness :
  exists level,
    log_command {| diagnostic := "bugprone-x"; filename := "src/a.cpp"; line := 12;
                   cols := 5; note_type := "note: expanded"; note_info := "m";
                   fixit_lines := [] |}
    = "::" +:+ level +:+ " file=src/a.cpp,line=12,title=src/a.cpp:12:5 [bugprone-x]::m"
    /\ level = "notice".
Proof.
  destruct (log_command_renders
              {| diagnostic := "bugprone-x"; filename := "src/a.cpp"; line := 12;
                 cols := 5; note_type := "note: expanded"; note_info := "m";
                 fixit_lines := [] |}) as [[level [H1 [H2 _]]] _].
  exists level. split.
  - exact H1.
  - apply H2. exists ": expanded". reflexivity.
Defined.

(** ** Splitting the header line *)

(** C5: the first two items of the split are joined again with a colon
    exactly when [sys.platform] starts with ["win32"] and the split has more
    than five items; otherwise the split is used as it is. *)
Theorem drive_letter_merge (env : Env) (l : string) :
  (is_win32 env = true /\ (5 < length (Str.split ":" l))%nat ->
   exists s0 s1 rest,
     Str.split ":" l = s0 :: s1 :: rest /\
     sliced_line env l = (s0 +:+ ":" +:+ s1) :: rest)
  /\ (~ (is_win32 env = true /\ (5 < length (Str.split ":" l))%nat) ->
      sliced_line env l = Str.split ":" l).
Proof.
  unfold sliced_line. split.
  - intros [Hw Hl]. rewrite Hw. simpl.
    destruct (Str.split ":" l) as [|s0 [|s1 rest]] eqn:E; simpl in Hl; try lia.
    exists s0, s1, rest. split; [reflexivity|].
    destruct (Nat.ltb_spec 5 (length (s0 :: s1 :: rest))) as [_|H]; [reflexivity|].
    simpl in H. lia.
  - intros H. destruct (is_win32 env); simpl; [|reflexivity].
    destruct (Nat.ltb_spec 5 (length (Str.split ":" l))) as [H'|_]; [|reflexivity].
    exfalso. apply H. split; [reflexivity | assumption].
Qed.

Lemma drive_letter_merge_witness :
  sliced_line {| sys_platform := "win32"; os_getcwd := "C:\w" |}
    "C:\src\file.cpp:12:5: warning: unused variable [check-x]"
  = ["C:\src\file.cpp"; "12"; "5"; " warning"; " unused variable [check-x]"]
  /\ sliced_line {| sys_platform := "linux"; os_getcwd := "/w" |}
       "/src/file.cpp:12:5: error: bad: thing [check-y]"
     = ["/src/file.cpp"; "12"; "5"; " error"; " bad"; " thing [check-y]"].
Proof.
  split.
  - destruct (proj1 (drive_letter_merge
        {| sys_platform := "win32"; os_getcwd := "C:\w" |}
        "C:\src\file.cpp:12:5: warning: unused variable [check-x]"))
      as (s0 & s1 & rest & E & ->).
    + split; [reflexivity | vm_compute; lia].
    + vm_compute in E. injection E as <- <- <-. reflexivity.
  - rewrite (proj2 (drive_letter_merge
        {| sys_platform := "linux"; os_getcwd := "/w" |}
        "/src/file.cpp:12:5: error: bad: thing [check-y]")).
    + reflexivity.
    + intros [H _]. vm_compute in H. discriminate.
Defined.


(** ** The loop of parse_tidy_output *)

Section Loop.

Variable env : Env.

Lemma extend_nil h : extend h [] = h.
Proof. destruct h. unfold extend. simpl. rewrite !app_nil_r. reflexivity. Qed.

Lemma extend_cons h r created :
  extend (extend h [r]) created = extend h (r :: created).
Proof.
  unfold extend. simpl. rewrite <- !app_assoc. simpl.
  rewrite length_app. simpl. rewrite Nat.add_1_r. reflexivity.
Qed.

Lemma omap_lookup_seq (l c : list TidyNotification) :
  omap (fun a => (l ++ c) !! a) (seq (length l) (length c)) = c.
Proof.
  revert l. induction c as [|x c IH]; intros l; [reflexivity|].
  csimpl. rewrite list_lookup_middle by reflexivity. f_equal.
  specialize (IH (l ++ [x])). rewrite <- app_assoc in IH. simpl in IH.
  rewrite length_app in IH. simpl in IH. rewrite Nat.add_1_r in IH. exact IH.
Qed.

Lemma omap_lookup_old (l c : list TidyNotification) (addrs : list nat) :
  Forall (fun a => (a < length l)%nat) addrs ->
  omap (fun a => (l ++ c) !! a) addrs = omap (fun a => l !! a) addrs.
Proof.
  induction 1 as [|a addrs Ha _ IH]; [reflexivity|].
  csimpl. rewrite lookup_app_l by assumption. rewrite IH. reflexivity.
Qed.

Lemma notes_extend h created :
  heap_wf h -> notes (extend h created) = notes h ++ created.
Proof.
  intros Hwf. unfold notes, extend. simpl. rewrite omap_app.
  rewrite omap_lookup_old by assumption. rewrite omap_lookup_seq. reflexivity.
Qed.

Lemma heap_wf_extend h created : heap_wf h -> heap_wf (extend h created).
Proof.
  unfold heap_wf, extend. simpl. intros H. apply Forall_app. split.
  - eapply Forall_impl; [exact H|]. simpl. intros a Ha. rewrite length_app. lia.
  - apply Forall_forall. intros a Ha. apply elem_of_seq in Ha.
    rewrite length_app. lia.
Qed.

(** Lines before the first header line are dropped. *)
Lemma parse_loop_skip pre rest h :
  Forall not_header pre ->
  parse_loop env (pre ++ rest) None h = parse_loop env rest None h.
Proof.
  induction 1 as [|l pre Hl _ IH]; [reflexivity|].
  simpl. rewrite Hl. exact IH.
Qed.

(** Lines after a header line go to the object that [notification] names. *)
Lemma parse_loop_excerpt ex rest objs r tn :
  Forall not_header ex ->
  parse_loop env (ex ++ rest) (Some (length objs))
    {| objects := objs ++ [r]; tidy_notes := tn |}
  = parse_loop env rest (Some (length objs))
      {| objects := objs ++ [with_fixit_lines (fixit_lines r ++ ex) r];
         tidy_notes := tn |}.
Proof.
  intros H. revert r. induction H as [|l ex Hl _ IH]; intros r.
  - simpl. rewrite app_nil_r. destruct r; reflexivity.
  - simpl. rewrite Hl. unfold fixit_append. simpl.
    rewrite <- (Nat.add_0_r (length objs)) at 2. rewrite alter_app_r. simpl.
    rewrite IH. unfold with_fixit_lines, append_fixit_line. simpl.
    rewrite <- app_assoc. reflexivity.
Qed.

Lemma parse_loop_block b r rest n h :
  block_ok b -> record_of_block env b r ->
  parse_loop env (block_lines b ++ rest) n h
  = parse_loop env rest (Some (length (objects h))) (extend h [r]).
Proof.
  intros [Hh Hex] [Hr Hf]. unfold block_lines. simpl.
  rewrite Hh, Hr. unfold new_notification.
  rewrite parse_loop_excerpt by assumption.
  unfold extend. simpl. rewrite <- Hf. destruct r; reflexivity.
Qed.

Lemma parse_loop_blocks blocks created :
  Forall block_ok blocks ->
  Forall2 (record_of_block env) blocks created ->
  forall n h,
    parse_loop env (concat (block_lines <$> blocks)) n h
    = Returned (extend h created).
Proof.
  intros Hok H. induction H as [|b r blocks created Hr _ IH]; intros n h.
  - simpl. rewrite extend_nil. reflexivity.
  - apply Forall_cons in Hok as [Hb Hok].
    change (concat (block_lines <$> b :: blocks))
      with (block_lines b ++ concat (block_lines <$> blocks)).
    rewrite (parse_loop_block b r) by assumption.
    rewrite (IH Hok). rewrite extend_cons. reflexivity.
Qed.

Lemma split_blocks_spec lines :
  lines = unsplit_blocks (split_blocks lines).1 (split_blocks lines).2
  /\ Forall not_header (split_blocks lines).1
  /\ Forall block_ok (split_blocks lines).2.
Proof.
  induction lines as [|l lines IH]; [repeat split; constructor|].
  simpl. destruct (split_blocks lines) as [pre blocks].
  destruct IH as (E & Hpre & Hb). simpl in *.
  destruct (is_header l) eqn:Hl; simpl.
  - repeat split.
    + unfold unsplit_blocks in *. simpl. f_equal. exact E.
    + constructor.
    + constructor; [split; assumption | assumption].
  - repeat split.
    + unfold unsplit_blocks in *. simpl. f_equal. exact E.
    + constructor; assumption.
    + assumption.
Qed.

(** A pass that returns has built a record from each of its header lines. *)
Lemma parse_loop_returned lines :
  forall n h h1,
    parse_loop env lines n h = Returned h1 ->
    Forall (fun l => is_header l = true ->
                     exists r, TidyNotification_init env l = Ok r) lines.
Proof.
  induction lines as [|l lines IH]; intros n h h1 H; [constructor|].
  simpl in H. destruct (is_header l) eqn:Hl.
  - destruct (TidyNotification_init env l) as [r|e] eqn:Hr; [|discriminate].
    constructor; [eauto|]. eapply IH. exact H.
  - constructor; [congruence|].
    destruct n; eapply IH; exact H.
Qed.

Lemma init_fixit_lines l r :
  TidyNotification_init env l = Ok r -> fixit_lines r = [].
Proof.
  unfold TidyNotification_init.
  destruct (sliced_line env l) as [|a [|b [|c [|d [|e [|]]]]]]; try discriminate.
  destruct (Regex.search_bracket e); [|discriminate]. simpl.
  destruct (Str.int b); [|discriminate]. simpl.
  destruct (Str.int c); [|discriminate]. simpl.
  intros [= <-]. reflexivity.
Qed.

Lemma records_exist blocks :
  Forall (fun b => exists r, TidyNotification_init env b.1 = Ok r) blocks ->
  exists created, Forall2 (record_of_block env) blocks created.
Proof.
  induction 1 as [|b blocks [r Hr] _ [created IH]]; [exists []; constructor|].
  exists (with_fixit_lines b.2 r :: created). constructor; [|assumption].
  split; [|reflexivity].
  rewrite Hr. f_equal. pose proof (init_fixit_lines _ _ Hr) as E.
  destruct r. simpl in *. subst. reflexivity.
Qed.

Lemma parse_loop_app pre :
  forall n h h1,
    parse_loop env pre n h = Returned h1 ->
    exists n1, forall rest,
      parse_loop env (pre ++ rest) n h = parse_loop env rest n1 h1.
Proof.
  induction pre as [|l pre IH]; intros n h h1 H.
  - injection H as <-. exists n. reflexivity.
  - simpl in *. destruct (is_header l).
    + destruct (TidyNotification_init env l); [|discriminate].
      simpl in *. eapply IH. exact H.
    + destruct n; eapply IH; exact H.
Qed.

End Loop.


(** A pass leaves a heap in which every note is allocated, so that the
    next pass starts from such a heap again. *)
Lemma parse_loop_wf env lines :
  forall notification h,
    heap_wf h ->
    (forall a, notification = Some a -> (a < length (objects h))%nat) ->
    heap_wf (outcome_heap (parse_loop env lines notification h)).
Proof.
  induction lines as [|l lines IH]; intros notification h Hwf Hn; [exact Hwf|].
  simpl. destruct (is_header l).
  - destruct (TidyNotification_init env l) as [r|e]; [|exact Hwf].
    simpl. apply IH.
    + apply (heap_wf_extend h [r]). assumption.
    + intros a [= <-]. simpl. rewrite length_app. simpl. lia.
  - destruct notification as [a|]; [|apply IH; assumption].
    apply IH.
    + unfold heap_wf, fixit_append. simpl. rewrite length_alter. exact Hwf.
    + unfold fixit_append. simpl. rewrite length_alter. exact Hn.
Qed.

Lemma parse_tidy_output_wf env lines h :
  heap_wf h -> heap_wf (outcome_heap (parse_tidy_output env lines h)).
Proof. intros Hwf. apply parse_loop_wf; [assumption | discriminate]. Qed.

(** ** The parse pass *)

Lemma heap_wf_empty : heap_wf empty_heap.
Proof. constructor. Qed.

Lemma parse_blocks env pre blocks created h0 :
  heap_wf h0 -> Forall not_header pre -> Forall block_ok blocks ->
  Forall2 (record_of_block env) blocks created ->
  parse_tidy_output env (unsplit_blocks pre blocks) h0 = Returned (extend h0 created).
Proof.
  intros Hwf Hpre Hok Hrec. unfold parse_tidy_output, unsplit_blocks.
  rewrite parse_loop_skip by assumption. apply parse_loop_blocks; assumption.
Qed.

Lemma parse_returned_blocks env pre blocks h0 h1 :
  Forall block_ok blocks ->
  parse_tidy_output env (unsplit_blocks pre blocks) h0 = Returned h1 ->
  Forall (fun b => exists r, TidyNotification_init env b.1 = Ok r) blocks.
Proof.
  intros Hok H. apply parse_loop_returned in H.
  unfold unsplit_blocks in H. apply Forall_app in H as [_ H].
  induction Hok as [|b blocks [Hb _] _ IH]; [constructor|].
  simpl in H. apply Forall_cons in H as [H1 H]. apply Forall_app in H as [_ H].
  constructor; auto.
Qed.

(** C1: the input is the lines before the first header line followed by
    blocks, a header line with the non-header lines that follow it. A pass
    returns exactly when a record can be built from every header line, and
    it then leaves, after the records that were there, one record per block
    in order, whose [fixit_lines] are the non-header lines of its block, as
    they are and in their order; the lines before the first header line are
    in no block. *)
Theorem excerpts_follow_their_header (env : Env) (lines : list string) (h0 : Heap) :
  heap_wf h0 ->
  exists pre blocks,
    lines = unsplit_blocks pre blocks
    /\ Forall not_header pre
    /\ Forall block_ok blocks
    /\ (Forall (fun b => exists r, TidyNotification_init env b.1 = Ok r) blocks
        <-> exists h1, parse_tidy_output env lines h0 = Returned h1)
    /\ forall h1,
         parse_tidy_output env lines h0 = Returned h1 ->
         exists created,
           notes h1 = notes h0 ++ created
           /\ Forall2 (record_of_block env) blocks created.
Proof.
  intros Hwf. destruct (split_blocks_spec lines) as (E & Hpre & Hok).
  exists (split_blocks lines).1, (split_blocks lines).2.
  split; [exact E|]. split; [exact Hpre|]. split; [exact Hok|].
  set (pre := (split_blocks lines).1) in *.
  set (blocks := (split_blocks lines).2) in *.
  assert (Hall : forall h1, parse_tidy_output env lines h0 = Returned h1 ->
            exists created, h1 = extend h0 created
                            /\ Forall2 (record_of_block env) blocks created).
  { intros h1 H. rewrite E in H.
    pose proof (parse_returned_blocks _ _ _ _ _ Hok H) as Hc.
    apply records_exist in Hc as [created Hc]. exists created.
    rewrite (parse_blocks env pre blocks created) in H by assumption.
    injection H as <-. split; [reflexivity | assumption]. }
  split; [split|].
  - intros Hc. apply records_exist in Hc as [created Hc].
    exists (extend h0 created). rewrite E at 1. apply parse_blocks; assumption.
  - intros [h1 H]. rewrite E in H. eapply parse_returned_blocks; eassumption.
  - intros h1 H. destruct (Hall h1 H) as (created & -> & Hc).
    exists created. split; [apply notes_extend; assumption | assumption].
Qed.

Lemma excerpts_follow_their_header_witness :
  heap_wf empty_heap /\
  exists pre blocks,
    report1 = unsplit_blocks pre blocks
    /\ Forall not_header pre
    /\ Forall block_ok blocks
    /\ (Forall (fun b => exists r, TidyNotification_init linux b.1 = Ok r) blocks
        <-> exists h1, parse_tidy_output linux report1 empty_heap = Returned h1)
    /\ forall h1,
         parse_tidy_output linux report1 empty_heap = Returned h1 ->
         exists created,
           notes h1 = notes empty_heap ++ created
           /\ Forall2 (record_of_block linux) blocks created.
Proof.
  split; [exact heap_wf_empty|].
  apply (excerpts_follow_their_header linux report1 empty_heap). exact heap_wf_empty.
Defined.

Example report1_parsed :
  split_blocks report1
  = (["2 warnings generated.
"], [("a.cpp:1:2: warning: m [c]
", ["  int x;
"; "  ^
"]); ("b.cpp:3:4: error: n [d]
", ["  y
"])])
  /\ notes (outcome_heap (parse_tidy_output linux report1 empty_heap))
     = [ {| diagnostic := "c"; filename := "a.cpp"; line := 1; cols := 2;
            note_type := "warning"; note_info := "m";
            fixit_lines := ["  int x;
"; "  ^
"] |};
         {| diagnostic := "d"; filename := "b.cpp"; line := 3; cols := 4;
            note_type := "error"; note_info := "n";
            fixit_lines := ["  y
"] |} ].
Proof. split; vm_compute; reflexivity. Qed.

(** C4: when the split of a line, after the merge of lines 29-32, has not
    exactly five items, building the record raises [ValueError]; when the
    line is a header line of the input, the pass ends with that exception at
    this line, whatever follows, the heap being as the lines before it left
    it. *)
Theorem malformed_header_aborts (env : Env) (l : string) :
  length (sliced_line env l) <> 5%nat ->
  TidyNotification_init env l = Raise ValueError
  /\ forall pre post h0 h1,
       is_header l = true ->
       parse_tidy_output env pre h0 = Returned h1 ->
       parse_tidy_output env (pre ++ l :: post) h0 = Raised ValueError h1.
Proof.
  intros Hlen.
  assert (Hinit : TidyNotification_init env l = Raise ValueError).
  { unfold TidyNotification_init.
    destruct (sliced_line env l) as [|a [|b [|c [|d [|e [|]]]]]]; try reflexivity.
    simpl in Hlen. lia. }
  split; [exact Hinit|].
  intros pre post h0 h1 Hh Hpre. unfold parse_tidy_output in *.
  destruct (parse_loop_app env pre None h0 h1 Hpre) as [n1 ->].
  simpl. rewrite Hh, Hinit. reflexivity.
Qed.

Lemma malformed_header_aborts_witness :
  TidyNotification_init linux "a.cpp:1:2: warning: use std::vector [c]
" = Raise ValueError
  /\ parse_tidy_output linux
       (["a.cpp:1:2: warning: m [c]
"; "  x
"] ++ "a.cpp:1:2: warning: use std::vector [c]
" :: ["b.cpp:3:4: error: n [d]
"]) empty_heap
     = Raised ValueError
         {| objects := [ {| diagnostic := "c"; filename := "a.cpp"; line := 1;
                            cols := 2; note_type := "warning"; note_info := "m";
                            fixit_lines := ["  x
"] |} ];
            tidy_notes := [0%nat] |}.
Proof.
  destruct (malformed_header_aborts linux "a.cpp:1:2: warning: use std::vector [c]
") as [H1 H2].
  - vm_compute. lia.
  - split; [exact H1|]. apply H2; vm_compute; reflexivity.
Defined.

(** C8, as the code has it: a pass appends to [GlobalParser.tidy_notes] and
    never empties it. The notes after a pass that returns are the notes from
    before the pass, unchanged, followed by the records of this pass, one per
    header line of its input in order; they are the records of this pass
    alone when the list was empty before it. *)
Theorem pass_appends_to_tidy_notes (env : Env) (lines : list string) (h0 h1 : Heap) :
  heap_wf h0 ->
  parse_tidy_output env lines h0 = Returned h1 ->
  exists created,
    notes h1 = notes h0 ++ created
    /\ Forall2 (record_of_block env) (split_blocks lines).2 created
    /\ (notes h0 = [] -> notes h1 = created).
Proof.
  intros Hwf H. destruct (split_blocks_spec lines) as (E & Hpre & Hok).
  rewrite E in H.
  pose proof (parse_returned_blocks _ _ _ _ _ Hok H) as Hc.
  apply records_exist in Hc as [created Hc]. exists created.
  rewrite (parse_blocks env _ _ created) in H by assumption.
  injection H as <-. rewrite notes_extend by assumption.
  split; [reflexivity|]. split; [assumption|]. intros ->. reflexivity.
Qed.

Lemma pass_appends_to_tidy_notes_witness :
  exists created,
    notes (extend empty_heap
             [ {| diagnostic := "c"; filename := "a.cpp"; line := 1; cols := 2;
                  note_type := "warning"; note_info := "m";
                  fixit_lines := ["  int x;
"; "  ^
"] |};
               {| diagnostic := "d"; filename := "b.cpp"; line := 3; cols := 4;
                  note_type := "error"; note_info := "n";
                  fixit_lines := ["  y
"] |} ])
    = notes empty_heap ++ created
    /\ Forall2 (record_of_block linux) (split_blocks report1).2 created
    /\ (notes empty_heap = [] ->
        notes (extend empty_heap
             [ {| diagnostic := "c"; filename := "a.cpp"; line := 1; cols := 2;
                  note_type := "warning"; note_info := "m";
                  fixit_lines := ["  int x;
"; "  ^
"] |};
               {| diagnostic := "d"; filename := "b.cpp"; line := 3; cols := 4;
                  note_type := "error"; note_info := "n";
                  fixit_lines := ["  y
"] |} ]) = created).
Proof.
  apply (pass_appends_to_tidy_notes linux report1 empty_heap).
  - exact heap_wf_empty.
  - vm_compute. reflexivity.
Defined.

(** C8 as stated fails: the second of two passes starts with the record of
    the first in [GlobalParser.tidy_notes], and ends with it still there,
    although no line of its input gives that record. *)
Lemma second_pass_keeps_first_pass_records :
  let pass1 := ["a.cpp:1:2: warning: m [c]
"] in
  let pass2 := ["b.cpp:3:4: error: n [d]
"] in
  let ra := {| diagnostic := "c"; filename := "a.cpp"; line := 1; cols := 2;
               note_type := "warning"; note_info := "m"; fixit_lines := [] |} in
  let rb := {| diagnostic := "d"; filename := "b.cpp"; line := 3; cols := 4;
               note_type := "error"; note_info := "n"; fixit_lines := [] |} in
  exists h1 h2,
    parse_tidy_output linux pass1 empty_heap = Returned h1
    /\ parse_tidy_output linux pass2 h1 = Returned h2
    /\ notes h1 = [ra]
    /\ notes h2 = [ra; rb]
    /\ ~ (forall r, r ∈ notes h2 ->
            exists l, l ∈ pass2 /\ TidyNotification_init linux l = Ok r).
Proof.
  intros pass1 pass2 ra rb.
  exists (extend empty_heap [ra]), (extend empty_heap [ra; rb]).
  split; [vm_compute; reflexivity|]. split; [vm_compute; reflexivity|].
  split; [reflexivity|]. split; [reflexivity|].
  intros H. destruct (H ra) as (l & Hl & Hr).
  - change (notes (extend empty_heap [ra; rb])) with [ra; rb]. constructor.
  - apply list_elem_of_singleton in Hl. subst l. vm_compute in Hr. discriminate.
Qed.


(** ** [str.replace] *)

Section Replace.

Implicit Types (s t old new : string).

Lemma drop_app_length s t : Str.drop (Str.length s) (s +:+ t) = t.
Proof. induction s as [|c s IH]; [reflexivity | exact IH]. Qed.

Lemma startswith_app s t : Str.startswith (s +:+ t) s = true.
Proof. apply startswith_prefix. exists t. reflexivity. Qed.

Lemma startswith_nil s : Str.startswith s "" = true.
Proof. destruct s; reflexivity. Qed.

(** A prefix no longer than [s] is a prefix of [s +:+ t] only if it is one
    of [s]. *)
Lemma startswith_app_short s t p :
  (Str.length p <= Str.length s)%nat ->
  Str.startswith (s +:+ t) p = Str.startswith s p.
Proof.
  revert s. induction p as [|a p IH]; intros s Hlen.
  - rewrite !startswith_nil. reflexivity.
  - destruct s as [|b s]; simpl in Hlen; [lia|].
    rewrite str_app_cons. simpl. rewrite IH by lia. reflexivity.
Qed.

Lemma but_last_snoc_ex s : s <> "" -> exists c, s = Str.but_last s +:+ String c "".
Proof.
  induction s as [|a s IH]; [congruence|]. intros _.
  destruct s as [|b s].
  - exists a. reflexivity.
  - destruct IH as [c Hc]; [discriminate|]. exists c.
    change (Str.but_last (String a (String b s))) with (String a (Str.but_last (String b s))).
    rewrite str_app_cons, <- Hc. reflexivity.
Qed.

Lemma length_but_last s : s <> "" -> Str.length s = S (Str.length (Str.but_last s)).
Proof.
  intros H. destruct (but_last_snoc_ex s H) as [c Hc]. rewrite Hc at 1.
  rewrite str_length_app. simpl. lia.
Qed.

Lemma replace_go_skip old new k s :
  Str.replace_go old new k s = Str.replace_go old new 0 (Str.drop k s).
Proof.
  revert k. induction s as [|a s IH]; intros [|k]; try reflexivity.
  simpl. apply IH.
Qed.

Lemma replace_nonempty old new s :
  old <> "" -> Str.replace old new s = Str.replace_go old new 0 s.
Proof. destruct old; [congruence | reflexivity]. Qed.

Lemma replace_go_found old new t :
  old <> "" ->
  Str.replace_go old new 0 (old +:+ t) = new +:+ Str.replace_go old new 0 t.
Proof.
  intros Hold. destruct old as [|a old]; [congruence|].
  rewrite str_app_cons. cbn [Str.replace_go].
  rewrite <- str_app_cons, startswith_app. f_equal.
  rewrite replace_go_skip. simpl. rewrite drop_app_length. reflexivity.
Qed.

Lemma replace_go_keep old new a s :
  Str.startswith (String a s) old = false ->
  Str.replace_go old new 0 (String a s) = String a (Str.replace_go old new 0 s).
Proof. intros H. cbn [Str.replace_go]. rewrite H. reflexivity. Qed.

Lemma contains_cons_false old a s :
  Str.contains old (String a s) = false ->
  Str.startswith (String a s) old = false /\ Str.contains old s = false.
Proof. cbn [Str.contains]. intros H. apply orb_false_iff in H. exact H. Qed.

(** A string without an occurrence of [old] is left as it is. *)
Lemma replace_absent old new s :
  Str.contains old s = false -> Str.replace old new s = s.
Proof.
  intros H. assert (Hold : old <> "").
  { intros ->. destruct s; discriminate. }
  rewrite replace_nonempty by assumption.
  induction s as [|a s IH]; [reflexivity|].
  apply contains_cons_false in H as [H1 H2].
  rewrite replace_go_keep by assumption. rewrite IH by assumption. reflexivity.
Qed.

(** The first occurrence of [old] is replaced, and the search goes on
    behind it. The occurrence shown is the first one when [old] does not
    occur in [s] followed by all but the last character of [old]. *)
Lemma replace_first old new s t :
  old <> "" ->
  Str.contains old (s +:+ Str.but_last old) = false ->
  Str.replace old new (s +:+ old +:+ t) = s +:+ new +:+ Str.replace old new t.
Proof.
  intros Hold. rewrite !replace_nonempty by assumption.
  induction s as [|a s IH]; intros H.
  - rewrite !str_app_nil_l. apply replace_go_found. assumption.
  - rewrite str_app_cons in H. apply contains_cons_false in H as [H1 H2].
    rewrite !str_app_cons. rewrite replace_go_keep; [rewrite IH by assumption; reflexivity|].
    destruct (but_last_snoc_ex old Hold) as [c Hc].
    rewrite Hc at 1. rewrite <- str_app_cons, str_app_assoc, <- str_app_assoc.
    rewrite startswith_app_short; [rewrite str_app_cons; exact H1|].
    rewrite str_app_cons. simpl. rewrite str_length_app.
    rewrite (length_but_last old Hold). lia.
Qed.


End Replace.


(** What [__init__] leaves in the fields, in terms of the five items. *)
Lemma init_fields env l r :
  TidyNotification_init env l = Ok r ->
  exists f ln cl ty info d,
    sliced_line env l = [f; ln; cl; ty; info]
    /\ Regex.search_bracket info = Some d
    /\ diagnostic r = Str.slice_1_m1 d
    /\ note_info r = Str.strip (Str.replace d "" info)
    /\ note_type r = Str.strip ty
    /\ Str.int ln = Some (line r)
    /\ Str.int cl = Some (cols r)
    /\ filename r = Str.replace (os_getcwd env +:+ os_sep env) "" f
    /\ fixit_lines r = [].
Proof.
  unfold TidyNotification_init.
  destruct (sliced_line env l) as [|f [|ln [|cl [|ty [|info [|]]]]]]; try discriminate.
  destruct (Regex.search_bracket info) as [d|] eqn:Hd; [|discriminate]. simpl.
  destruct (Str.int ln) as [n|] eqn:Hn; [|discriminate]. simpl.
  destruct (Str.int cl) as [m|] eqn:Hm; [|discriminate]. simpl.
  intros [= <-]. exists f, ln, cl, ty, info, d. simpl. repeat split; assumption || reflexivity.
Qed.



Example filename_examples :
  TidyNotification_init linux "/w/src/file.cpp:12:5: error: bad thing [check-y]"
    = Ok {| diagnostic := "check-y"; filename := "src/file.cpp"; line := 12;
            cols := 5; note_type := "error"; note_info := "bad thing";
            fixit_lines := [] |}
  /\ TidyNotification_init linux "/w/src/w/x.cpp:1:2: warning: m [c]"
    = Ok {| diagnostic := "c"; filename := "srcx.cpp"; line := 1; cols := 2;
            note_type := "warning"; note_info := "m"; fixit_lines := [] |}.
Proof. split; vm_compute; reflexivity. Qed.

(** ** The header pattern *)

Section Header.

Import Regex RegexFacts.

Implicit Types (s t : string) (c : ascii).

Lemma all_mem p s : Str.all p s = true <-> forall c, Str.mem c s = true -> p c = true.
Proof.
  induction s as [|a s IH]; simpl.
  - split; [discriminate | reflexivity].
  - rewrite andb_true_iff, IH. split.
    + intros [Ha Hs] c Hc. apply orb_true_iff in Hc as [Hc|Hc]; [|auto].
      apply Ascii.eqb_eq in Hc. subst. assumption.
    + intros H. split.
      * apply H. rewrite Ascii.eqb_refl. reflexivity.
      * intros c Hc. apply H. rewrite Hc. apply orb_true_r.
Qed.

Lemma all_app p s t : Str.all p (s +:+ t) = Str.all p s && Str.all p t.
Proof.
  induction s as [|a s IH]; [reflexivity|].
  rewrite str_app_cons. simpl. rewrite IH. apply andb_assoc.
Qed.

Lemma lang_any s : lang (Star (Class dot)) s <-> Str.all dot s = true.
Proof.
  rewrite all_mem. split; [apply lang_star_class_inv | apply lang_star_class].
Qed.

Lemma lang_some p s :
  lang (Plus (Class p)) s <-> s <> "" /\ Str.all p s = true.
Proof.
  rewrite all_mem. split; [apply lang_plus_class_inv|].
  intros [Hne H]. destruct s as [|c s]; [congruence|].
  apply lang_plus_class.
  - apply H. simpl. rewrite Ascii.eqb_refl. reflexivity.
  - intros d Hd. apply H. simpl. rewrite Hd. apply orb_true_r.
Qed.

Lemma chomp_newline s : chomp (s +:+ String Str.newline "") = Some s.
Proof.
  induction s as [|c s IH]; [reflexivity|].
  rewrite str_app_cons.
  change (chomp (String c (s +:+ String Str.newline "")))
    with (match s +:+ String Str.newline "" with
          | "" => if Ascii.eqb c Str.newline then Some "" else None
          | _ => String c <$> chomp (s +:+ String Str.newline "")
          end).
  rewrite IH. destruct s; reflexivity.
Qed.

Lemma chomp_Some s t : chomp s = Some t -> s = t +:+ String Str.newline "".
Proof.
  revert t. induction s as [|c s IH]; intros t; [discriminate|].
  destruct s as [|d s].
  - simpl. destruct (Ascii.eqb c Str.newline) eqn:E; [|discriminate].
    apply Ascii.eqb_eq in E. intros [= <-]. subst. reflexivity.
  - change (chomp (String c (String d s))) with (String c <$> chomp (String d s)).
    destruct (chomp (String d s)) as [t'|]; [|discriminate].
    intros [= <-]. rewrite str_app_cons. f_equal. apply IH. reflexivity.
Qed.

(** A line is a header line when it, or it without the newline that ends
    it, is in the language of the pattern. *)
Lemma is_header_lang l :
  is_header l = true <->
  lang header_body l \/ exists t, l = t +:+ String Str.newline "" /\ lang header_body t.
Proof.
  unfold is_header, search_anchored. rewrite orb_true_iff, matches_lang. split.
  - intros [H|H]; [left; assumption|]. right.
    destruct (chomp l) as [t|] eqn:E; [|discriminate].
    exists t. split; [apply chomp_Some; assumption | apply matches_lang; assumption].
  - intros [H|(t & -> & H)]; [left; assumption|]. right.
    rewrite chomp_newline. apply matches_lang. assumption.
Qed.

(** The strings of the pattern's language *)
Lemma header_body_lang l :
  lang header_body l <->
  exists path ln col ws sev msg id,
    l = path +:+ ":" +:+ ln +:+ ":" +:+ col +:+ ":" +:+ String ws sev +:+ ":"
        +:+ msg +:+ "[" +:+ id +:+ "]"
    /\ Str.all dot path = true
    /\ ln <> "" /\ Str.all digit ln = true
    /\ col <> "" /\ Str.all digit col = true
    /\ space ws = true
    /\ sev <> "" /\ Str.all word sev = true
    /\ Str.all dot msg = true
    /\ Str.all dot id = true.
Proof.
  unfold header_body. split.
  - intros H.
    repeat match goal with
           | H : lang (Seq _ _) _ |- _ => inversion H; subst; clear H
           end.
    repeat match goal with
           | H : lang (Chr _) _ |- _ => apply lang_chr in H; subst
           | H : lang (Star (Class dot)) _ |- _ => apply lang_any in H
           | H : lang (Plus (Class _)) _ |- _ => apply lang_some in H as [? ?]
           | H : lang (Class _) _ |- _ => inversion H; subst; clear H
           end.
    do 7 eexists. split; [reflexivity|]. repeat split; assumption.
  - intros (path & ln & col & ws & sev & msg & id & -> & Hp & Hl1 & Hl2 & Hc1 & Hc2
            & Hws & Hs1 & Hs2 & Hm & Hi).
    constructor; [apply lang_any; assumption|].
    change (":" +:+ ?x) with (String ":" "" +:+ x).
    constructor; [apply lang_chr; reflexivity|].
    constructor; [apply lang_some; split; assumption|].
    constructor; [apply lang_chr; reflexivity|].
    constructor; [apply lang_some; split; assumption|].
    constructor; [apply lang_chr; reflexivity|].
    change (String ws sev +:+ ?x) with (String ws "" +:+ sev +:+ x).
    constructor; [constructor; assumption|].
    constructor; [apply lang_some; split; assumption|].
    constructor; [apply lang_chr; reflexivity|].
    constructor; [apply lang_any; assumption|].
    constructor; [apply lang_chr; reflexivity|].
    constructor; [apply lang_any; assumption|].
    apply lang_chr. reflexivity.
Qed.

End Header.

(** C7, as the code has it: a line
    [<path>:<line>:<col>: <severity>: <message>[<check-id>]], with two
    numbers of decimal digits, one white-space character and a severity of
    word characters, a path, a message and a check-id without a newline, is a
    header line when the closing bracket ends it or is followed by the one
    newline that ends the line. *)
Theorem header_shape_is_matched
    (path ln col sev msg id : string) (ws : ascii) (eol : string) :
  Str.all Regex.dot path = true ->
  ln <> "" -> Str.all Regex.digit ln = true ->
  col <> "" -> Str.all Regex.digit col = true ->
  Regex.space ws = true ->
  sev <> "" -> Str.all Regex.word sev = true ->
  Str.all Regex.dot msg = true ->
  Str.all Regex.dot id = true ->
  eol = "" \/ eol = String Str.newline "" ->
  is_header ((path +:+ ":" +:+ ln +:+ ":" +:+ col +:+ ":" +:+ String ws sev +:+ ":"
              +:+ msg +:+ "[" +:+ id +:+ "]") +:+ eol) = true.
Proof.
  intros Hp Hl1 Hl2 Hc1 Hc2 Hws Hs1 Hs2 Hm Hi Heol.
  apply is_header_lang.
  assert (H : Regex.lang header_body
                (path +:+ ":" +:+ ln +:+ ":" +:+ col +:+ ":" +:+ String ws sev +:+ ":"
                 +:+ msg +:+ "[" +:+ id +:+ "]")).
  { apply header_body_lang. do 7 eexists. split; [reflexivity|].
    repeat split; assumption. }
  destruct Heol as [-> | ->].
  - left. rewrite str_app_nil_r. exact H.
  - right. eexists. split; [reflexivity | exact H].
Qed.

Lemma header_shape_is_matched_witness :
  is_header (("src/file.cpp" +:+ ":" +:+ "12" +:+ ":" +:+ "5" +:+ ":"
              +:+ String " " "warning" +:+ ":" +:+ " unused variable "
              +:+ "[" +:+ "check-x" +:+ "]") +:+ String Str.newline "") = true.
Proof.
  apply (header_shape_is_matched "src/file.cpp" "12" "5" "warning"
           " unused variable " "check-x" " " (String Str.newline ""));
    try reflexivity; try discriminate.
  right. reflexivity.
Defined.

(** C7 as stated fails: white space other than the final newline after the
    closing bracket makes the line an ordinary one. *)
Lemma trailing_space_is_not_a_header :
  is_header "src/file.cpp:12:5: warning: unused variable [check-x] " = false
  /\ is_header "src/file.cpp:12:5: warning: unused variable [check-x] 
" = false
  /\ is_header "src/file.cpp:12:5: warning: unused variable [check-x]" = true.
Proof. repeat split; vm_compute; reflexivity. Qed.

(** C2, the code at a message with brackets of its own: the greedy [.*]
    runs from the first [[] of the message to the last []], so the check
    name comes with a piece of the message, and the message loses it. *)
Lemma check_id_starts_at_first_bracket :
  TidyNotification_init linux
    "a.cpp:1:2: error: no viable overloaded operator[] for type 'S' [clang-diagnostic-error]
"
  = Ok {| diagnostic := "] for type 'S' [clang-diagnostic-error";
          filename := "a.cpp"; line := 1; cols := 2; note_type := "error";
          note_info := "no viable overloaded operator"; fixit_lines := [] |}
  /\ is_header
       "a.cpp:1:2: error: no viable overloaded operator[] for type 'S' [clang-diagnostic-error]
" = true.
Proof. split; vm_compute; reflexivity. Qed.


(** ** [str.split] *)

Section Split.

Implicit Types (s t a b : string) (c : ascii).

Lemma mem_app c s t : Str.mem c (s +:+ t) = Str.mem c s || Str.mem c t.
Proof.
  induction s as [|d s IH]; [reflexivity|].
  rewrite str_app_cons. simpl. rewrite IH. apply orb_assoc.
Qed.

Lemma mem_all c s : Str.mem c s = false <-> Str.all (fun d => negb (Ascii.eqb d c)) s = true.
Proof.
  induction s as [|d s IH]; simpl; [split; reflexivity|].
  rewrite orb_false_iff, andb_true_iff, IH, negb_true_iff. reflexivity.
Qed.

Lemma all_impl (p q : ascii -> bool) s :
  (forall c, p c = true -> q c = true) -> Str.all p s = true -> Str.all q s = true.
Proof.
  intros Hpq. induction s as [|d s IH]; simpl; [reflexivity|].
  rewrite !andb_true_iff. intros [H1 H2]. auto.
Qed.

Lemma all_not_mem (p : ascii -> bool) c s :
  p c = false -> Str.all p s = true -> Str.mem c s = false.
Proof.
  intros Hc H. apply mem_all. revert H. apply all_impl.
  intros d Hd. apply negb_true_iff, Ascii.eqb_neq. congruence.
Qed.

Lemma split_nonempty c s : Str.split c s <> [].
Proof.
  destruct s as [|d s]; simpl; [discriminate|].
  destruct (Ascii.eqb d c); [discriminate|].
  destruct (Str.split c s); discriminate.
Qed.

Lemma split_cons_other c d s :
  Ascii.eqb d c = false ->
  exists f fs, Str.split c s = f :: fs /\ Str.split c (String d s) = String d f :: fs.
Proof.
  intros H. simpl. rewrite H.
  destruct (Str.split c s) as [|f fs] eqn:E; [destruct (split_nonempty c s E)|].
  exists f, fs. split; reflexivity.
Qed.

(** A string without the separator is one field. *)
Lemma split_absent c s : Str.mem c s = false -> Str.split c s = [s].
Proof.
  induction s as [|d s IH]; [reflexivity|]. simpl.
  intros H. apply orb_false_iff in H as [H1 H2].
  rewrite H1, (IH H2). reflexivity.
Qed.

(** The fields on both sides of a separator *)
Lemma split_app c a b :
  Str.split c (a +:+ String c b) = Str.split c a ++ Str.split c b.
Proof.
  induction a as [|d a IH].
  - rewrite str_app_nil_l. simpl. rewrite Ascii.eqb_refl. reflexivity.
  - rewrite str_app_cons. destruct (Ascii.eqb d c) eqn:E.
    + simpl. rewrite E, IH. reflexivity.
    + destruct (split_cons_other c d a E) as (f & fs & E1 & E2).
      rewrite E2. simpl. rewrite E, IH, E1. reflexivity.
Qed.

Lemma split_fields c s : Forall (fun f => Str.mem c f = false) (Str.split c s).
Proof.
  induction s as [|d s IH]; simpl.
  - constructor; [reflexivity | constructor].
  - destruct (Ascii.eqb d c) eqn:E.
    + constructor; [reflexivity | assumption].
    + destruct (Str.split c s) as [|f fs]; [repeat constructor; simpl; rewrite E; reflexivity|].
      apply Forall_cons in IH as [H1 H2]. constructor; [|assumption].
      simpl. rewrite E, H1. reflexivity.
Qed.

Lemma count_app c s t : Str.count c (s +:+ t) = (Str.count c s + Str.count c t)%nat.
Proof.
  induction s as [|d s IH]; [reflexivity|].
  rewrite str_app_cons. simpl. rewrite IH. lia.
Qed.

Lemma count_mem c s : Str.count c s = 0%nat <-> Str.mem c s = false.
Proof.
  induction s as [|d s IH]; simpl; [split; reflexivity|].
  destruct (Ascii.eqb d c); simpl; [split; [lia | discriminate] | exact IH].
Qed.

Lemma length_split c s : length (Str.split c s) = S (Str.count c s).
Proof.
  induction s as [|d s IH]; [reflexivity|]. simpl.
  destruct (Ascii.eqb d c); simpl; [rewrite IH; reflexivity|].
  destruct (Str.split c s); simpl in *; [discriminate | exact IH].
Qed.

Lemma split_one c s f : Str.split c s = [f] -> s = f /\ Str.mem c s = false.
Proof.
  intros H. assert (Hm : Str.mem c s = false).
  { apply count_mem. pose proof (length_split c s) as Hl. rewrite H in Hl.
    simpl in Hl. lia. }
  split; [|assumption]. rewrite (split_absent c s Hm) in H. congruence.
Qed.

(** The text behind the last separator *)
Lemma split_last_suffix c s :
  exists a b, s = a +:+ b /\ Str.mem c b = false /\ last (Str.split c s) = Some b.
Proof.
  induction s as [|d s (a & b & E & Hb & Hl)].
  - exists "", "". repeat split.
  - destruct (Ascii.eqb d c) eqn:Ed.
    + exists (String d a), b. split; [rewrite str_app_cons, <- E; reflexivity|].
      split; [assumption|]. simpl. rewrite Ed.
      destruct (Str.split c s) as [|f fs] eqn:Es; [discriminate|].
      rewrite last_cons, Hl. reflexivity.
    + destruct (split_cons_other c d s Ed) as (f & fs & E1 & E2).
      rewrite E2. rewrite E1 in Hl. destruct fs as [|g fs].
      * apply split_one in E1 as [E1 Hs].
        exists "", (String d s). split; [reflexivity|].
        split; [simpl; rewrite Ed, Hs; reflexivity | subst f; reflexivity].
      * exists (String d a), b. split; [rewrite str_app_cons, <- E; reflexivity|].
        split; [assumption|]. rewrite last_cons in Hl |- *.
        destruct (last (g :: fs)) eqn:El; [assumption|].
        apply last_None in El. discriminate.
Qed.

Lemma all_suffix (p : ascii -> bool) a b :
  Str.all p (a +:+ b) = true -> Str.all p b = true.
Proof. rewrite all_app, andb_true_iff. tauto. Qed.

(** Behind the last separator of [s +:+ t], when [t] has none, is what is
    behind the last separator of [s], followed by [t]. *)
Lemma split_last_app c s t :
  Str.mem c t = false ->
  exists a b, s = a +:+ b /\ last (Str.split c (s +:+ t)) = Some (b +:+ t).
Proof.
  intros Ht. induction s as [|d s (a & b & E & Hl)].
  - exists "", "". split; [reflexivity|].
    rewrite !str_app_nil_l, split_absent by assumption. reflexivity.
  - rewrite str_app_cons. destruct (Ascii.eqb d c) eqn:Ed.
    + exists (String d a), b. split; [rewrite str_app_cons, <- E; reflexivity|].
      simpl. rewrite Ed.
      destruct (Str.split c (s +:+ t)) as [|f fs] eqn:Es; [discriminate|].
      rewrite last_cons, Hl. reflexivity.
    + destruct (split_cons_other c d (s +:+ t) Ed) as (f & fs & E1 & E2).
      rewrite E2. rewrite E1 in Hl. destruct fs as [|g fs].
      * injection Hl as ->. apply split_one in E1 as [E1 _].
        assert (a = "") as ->.
        { apply (f_equal Str.length) in E1. rewrite E in E1.
          rewrite !str_length_app in E1. destruct a; [reflexivity|].
          simpl in E1. lia. }
        rewrite str_app_nil_l in E. subst s.
        exists "", (String d b). split; reflexivity.
      * exists (String d a), b. split; [rewrite str_app_cons, <- E; reflexivity|].
        rewrite last_cons in Hl |- *.
        destruct (last (g :: fs)) eqn:El; [assumption|].
        apply last_None in El. discriminate.
Qed.

(** A string with one separator is two fields. *)
Lemma count_one c s :
  Str.count c s = 1%nat ->
  exists a b, s = a +:+ String c b /\ Str.mem c a = false /\ Str.mem c b = false.
Proof.
  induction s as [|d s IH]; simpl; [discriminate|].
  destruct (Ascii.eqb d c) eqn:E; simpl.
  - intros [= H]. apply Ascii.eqb_eq in E. subst d.
    exists "", s. split; [reflexivity|]. split; [reflexivity | apply count_mem; assumption].
  - intros H. destruct (IH H) as (a & b & -> & Ha & Hb).
    exists (String d a), b. split; [reflexivity|].
    split; [simpl; rewrite E, Ha; reflexivity | assumption].
Qed.

End Split.


(** ** The bracket search and the last item of a header line *)

Section Brackets.

Import Regex RegexFacts.

Implicit Types (s t : string) (c : ascii).

Lemma bracket_at_cons c s :
  bracket_at (String c s) =
  if Ascii.eqb c "[" then String "[" <$> dots_then_rbracket s else None.
Proof. destruct c as [[] [] [] [] [] [] [] []]; reflexivity. Qed.

Lemma search_bracket_absent s : Str.mem "[" s = false -> search_bracket s = None.
Proof.
  induction s as [|c s IH]; [reflexivity|]. simpl Str.mem.
  intros H. apply orb_false_iff in H as [H1 H2].
  cbn [search_bracket]. rewrite bracket_at_cons, H1. auto.
Qed.

Lemma search_bracket_first s t :
  Str.mem "[" s = false ->
  search_bracket (s +:+ String "[" t) =
  match dots_then_rbracket t with
  | Some m => Some (String "[" m)
  | None => search_bracket t
  end.
Proof.
  induction s as [|c s IH]; intros H.
  - rewrite str_app_nil_l. cbn [search_bracket]. rewrite bracket_at_cons. simpl.
    destruct (dots_then_rbracket t); reflexivity.
  - simpl in H. apply orb_false_iff in H as [H1 H2].
    rewrite str_app_cons. cbn [search_bracket]. rewrite bracket_at_cons, H1. auto.
Qed.

(** Greedy: with nothing but a newline behind it, the last bracket of the
    line is taken. *)
Lemma dots_then_rbracket_line s eol :
  Str.all dot s = true -> is_eol eol ->
  dots_then_rbracket (s +:+ "]" +:+ eol) = Some (s +:+ "]").
Proof.
  intros Hs Heol. induction s as [|c s IH].
  - destruct Heol as [-> | ->]; reflexivity.
  - simpl in Hs. apply andb_true_iff in Hs as [Hc Hs].
    rewrite (str_app_cons c s ("]" +:+ eol)), (str_app_cons c s "]").
    cbn [dots_then_rbracket]. rewrite Hc, (IH Hs). reflexivity.
Qed.

Lemma first_occurrence c s :
  Str.mem c s = true -> exists a b, s = a +:+ String c b /\ Str.mem c a = false.
Proof.
  induction s as [|d s IH]; simpl; [discriminate|].
  destruct (Ascii.eqb d c) eqn:E; simpl.
  - intros _. apply Ascii.eqb_eq in E. subst. exists "", s. split; reflexivity.
  - intros H. destruct (IH H) as (a & b & -> & Ha). exists (String d a), b.
    split; [reflexivity|]. simpl. rewrite E, Ha. reflexivity.
Qed.

(** In the last item of a header line the search finds the text from the
    first [[] to the []] that ends the line. *)
Lemma search_bracket_line s eol d :
  Str.all dot s = true -> is_eol eol ->
  search_bracket (s +:+ "]" +:+ eol) = Some d ->
  exists a b, s = a +:+ String "[" b /\ Str.mem "[" a = false
              /\ d = String "[" (b +:+ "]").
Proof.
  intros Hs Heol H. destruct (Str.mem "[" s) eqn:Hm.
  - destruct (first_occurrence _ _ Hm) as (a & b & -> & Ha).
    exists a, b. split; [reflexivity|]. split; [assumption|].
    rewrite str_app_assoc, str_app_cons in H.
    rewrite search_bracket_first in H by assumption.
    rewrite all_app in Hs. apply andb_true_iff in Hs as [_ Hs]. simpl in Hs.
    rewrite dots_then_rbracket_line in H by assumption.
    congruence.
  - rewrite search_bracket_absent in H; [discriminate|].
    rewrite mem_app, Hm. destruct Heol as [-> | ->]; reflexivity.
Qed.

Lemma sliced_line_last env l : last (sliced_line env l) = last (Str.split ":" l).
Proof.
  unfold sliced_line.
  destruct (is_win32 env && (5 <? length (Str.split ":" l))%nat) eqn:E; [|reflexivity].
  apply andb_true_iff in E as [_ E]. apply Nat.ltb_lt in E.
  destruct (Str.split ":" l) as [|s0 [|s1 [|s2 rest]]]; simpl in E; try lia.
  reflexivity.
Qed.

(** The last item of a header line ends with a []], followed at most by
    the newline of the line, and has no other newline. *)
Lemma header_last_item l :
  is_header l = true ->
  exists s eol,
    last (Str.split ":" l) = Some (s +:+ "]" +:+ eol)
    /\ Str.all dot s = true /\ is_eol eol.
Proof.
  intros H.
  assert (exists core eol, l = core +:+ eol /\ lang header_body core /\ is_eol eol)
    as (core & eol & -> & Hc & Heol).
  { apply is_header_lang in H as [H | (t & -> & H)].
    - exists l, "". rewrite str_app_nil_r. repeat split; [assumption | left; reflexivity].
    - exists t, (String Str.newline ""). repeat split; [assumption | right; reflexivity]. }
  apply header_body_lang in Hc
    as (path & ln & col & ws & sev & msg & id & -> & _ & _ & _ & _ & _ & _ & _ & _ & Hm & Hi).
  assert (E : (path +:+ ":" +:+ ln +:+ ":" +:+ col +:+ ":" +:+ String ws sev +:+ ":"
               +:+ msg +:+ "[" +:+ id +:+ "]") +:+ eol
              = path +:+ String ":" (ln +:+ String ":" (col +:+ String ":"
                  (String ws sev +:+ String ":" ((msg +:+ "[" +:+ id) +:+ "]" +:+ eol))))).
  { rewrite !str_app_assoc. reflexivity. }
  rewrite E. clear E.
  destruct (split_last_app ":" (msg +:+ "[" +:+ id) ("]" +:+ eol)) as (a & b & E & Hl).
  { destruct Heol as [-> | ->]; reflexivity. }
  exists b, eol. split.
  - rewrite !split_app, !last_app, Hl. reflexivity.
  - split; [|assumption]. apply (all_suffix dot a b). rewrite <- E.
    rewrite !all_app, Hm, Hi. reflexivity.
Qed.

Lemma but_last_snoc s c : Str.but_last (s +:+ String c "") = s.
Proof.
  induction s as [|a s IH]; [reflexivity|].
  rewrite str_app_cons.
  change (Str.but_last (String a (s +:+ String c "")))
    with (match s +:+ String c "" with
          | "" => ""
          | _ => String a (Str.but_last (s +:+ String c ""))
          end).
  rewrite IH. destruct s; reflexivity.
Qed.

(** The fields of a record built from a header line *)
Lemma header_record env l r :
  is_header l = true ->
  TidyNotification_init env l = Ok r ->
  exists f ln cl ty before eol,
    sliced_line env l
      = [f; ln; cl; ty; before +:+ String "[" (diagnostic r +:+ "]") +:+ eol]
    /\ Str.mem "[" before = false
    /\ Str.all dot (diagnostic r) = true
    /\ is_eol eol
    /\ note_info r
       = Str.strip (Str.replace (String "[" (diagnostic r +:+ "]")) ""
                      (before +:+ String "[" (diagnostic r +:+ "]") +:+ eol))
    /\ note_type r = Str.strip ty
    /\ Str.int ln = Some (line r)
    /\ Str.int cl = Some (cols r)
    /\ filename r = Str.replace (os_getcwd env +:+ os_sep env) "" f.
Proof.
  intros Hh Hr.
  apply init_fields in Hr
    as (f & ln & cl & ty & info & d & Hs & Hd & Hdiag & Hinfo & Hty & Hln & Hcl & Hf & _).
  destruct (header_last_item l Hh) as (s & eol & Hl & Hall & Heol).
  rewrite <- (sliced_line_last env), Hs in Hl. simpl in Hl. injection Hl as ->.
  destruct (search_bracket_line s eol d Hall Heol Hd) as (a & b & -> & Ha & ->).
  assert (Hb : diagnostic r = b).
  { rewrite Hdiag. unfold Str.slice_1_m1. simpl Str.tail. apply but_last_snoc. }
  rewrite Hb. exists f, ln, cl, ty, a, eol.
  split; [rewrite Hs; str_norm; reflexivity|].
  split; [assumption|]. split.
  { rewrite all_app in Hall. apply andb_true_iff in Hall as [_ Hall].
    simpl in Hall. assumption. }
  split; [assumption|].
  split; [rewrite Hinfo; str_norm; reflexivity|].
  repeat split; assumption.
Qed.

End Brackets.

(** The first occurrence of a character cuts a text in one way only. *)
Lemma first_occurrence_unique (c : ascii) (a b a' b' : string) :
  a +:+ String c b = a' +:+ String c b' ->
  Str.mem c a = false -> Str.mem c a' = false -> a = a' /\ b = b'.
Proof.
  revert a'. induction a as [|x a IH]; intros [|y a'] E Ha Ha'.
  - rewrite !str_app_nil_l in E. injection E as ->. split; reflexivity.
  - rewrite str_app_nil_l, str_app_cons in E. injection E as <- _.
    simpl in Ha'. rewrite Ascii.eqb_refl in Ha'. discriminate.
  - rewrite str_app_nil_l, str_app_cons in E. injection E as -> _.
    simpl in Ha. rewrite Ascii.eqb_refl in Ha. discriminate.
  - rewrite !str_app_cons in E. injection E as -> E.
    simpl in Ha, Ha'. apply orb_false_iff in Ha as [_ Ha].
    apply orb_false_iff in Ha' as [_ Ha'].
    destruct (IH a' E Ha Ha') as [-> ->]. split; reflexivity.
Qed.

(** C6, as the code has it: the check-id of a record built from a header
    line is empty exactly when the last item of the split has a single [[]
    and the []] that ends the line comes directly after it. The check-id of
    every other header line from which a record is built is not empty. *)
Theorem check_id_empty_iff_empty_brackets
    (env : Env) (l : string) (r : TidyNotification) :
  is_header l = true ->
  TidyNotification_init env l = Ok r ->
  (diagnostic r = "" <->
   exists before eol,
     last (sliced_line env l) = Some (before +:+ "[]" +:+ eol)
     /\ Str.mem "[" before = false
     /\ is_eol eol).
Proof.
  intros Hh Hr.
  destruct (header_record env l r Hh Hr)
    as (f & ln & cl & ty & before & eol & Hs & Hb & _ & Heol & _).
  rewrite Hs. cbn [last]. split.
  - intros E. exists before, eol. rewrite E.
    split; [reflexivity|]. split; assumption.
  - intros (b' & e' & Hl & Hb' & He'). injection Hl as Hl.
    rewrite str_app_cons in Hl.
    change ("[]" +:+ e') with (String "[" (String "]" e')) in Hl.
    apply first_occurrence_unique in Hl as [_ E]; [|assumption..].
    destruct (diagnostic r) as [|c d]; [reflexivity|]. exfalso.
    rewrite !str_app_cons in E. injection E as _ E.
    destruct He' as [-> | ->].
    + apply (f_equal Str.length) in E. rewrite !str_length_app in E.
      simpl in E. lia.
    + destruct d as [|x d].
      * rewrite str_app_nil_l, str_app_cons in E. discriminate E.
      * apply (f_equal Str.length) in E. rewrite !str_length_app in E.
        simpl in E. lia.
Qed.

Lemma check_id_empty_iff_empty_brackets_witness :
  "" = "" <->
  exists before eol,
    last (sliced_line linux "b.cpp:3:4: error: x []
")
    = Some (before +:+ "[]" +:+ eol)
    /\ Str.mem "[" before = false
    /\ is_eol eol.
Proof.
  apply (check_id_empty_iff_empty_brackets linux
           "b.cpp:3:4: error: x []
"
           {| diagnostic := ""; filename := "b.cpp"; line := 3;
              cols := 4; note_type := "error"; note_info := "x";
              fixit_lines := [] |}); vm_compute; reflexivity.
Defined.

(** C6 as stated fails: an empty bracket pair is enough for the header
    pattern, and the record built from the line has an empty check-id. *)
Lemma empty_brackets_give_empty_check_id :
  is_header "a.cpp:1:2: warning: m []" = true
  /\ TidyNotification_init linux "a.cpp:1:2: warning: m []"
     = Ok {| diagnostic := ""; filename := "a.cpp"; line := 1; cols := 2;
             note_type := "warning"; note_info := "m"; fixit_lines := [] |}.
Proof. split; vm_compute; reflexivity. Qed.


(** ** [str.strip] *)

Section Strip.

Variable p : ascii -> bool.

Implicit Types (s t : string) (c : ascii).

Lemma rstrip_cons c s :
  Str.rstrip_with p (String c s) =
  match Str.rstrip_with p s with
  | "" => if p c then "" else String c ""
  | r => String c r
  end.
Proof. reflexivity. Qed.

Lemma rstrip_snoc s c :
  p c = true -> Str.rstrip_with p (s +:+ String c "") = Str.rstrip_with p s.
Proof.
  intros Hc. induction s as [|a s IH].
  - simpl. rewrite Hc. reflexivity.
  - rewrite str_app_cons, !rstrip_cons, IH. reflexivity.
Qed.

Lemma lstrip_all s : Str.all p s = true -> Str.lstrip_with p s = "".
Proof.
  induction s as [|a s IH]; [reflexivity|]. simpl.
  intros H. apply andb_true_iff in H as [Ha Hs]. rewrite Ha. auto.
Qed.

Lemma lstrip_app s t :
  Str.all p s = false -> Str.lstrip_with p (s +:+ t) = Str.lstrip_with p s +:+ t.
Proof.
  induction s as [|a s IH]; [discriminate|]. rewrite str_app_cons. simpl.
  destruct (p a); simpl; [exact IH | reflexivity].
Qed.

Lemma strip_snoc s c :
  p c = true -> Str.strip_with p (s +:+ String c "") = Str.strip_with p s.
Proof.
  intros Hc. unfold Str.strip_with. destruct (Str.all p s) eqn:E.
  - rewrite (lstrip_all s E).
    rewrite lstrip_all; [reflexivity|].
    rewrite all_app, E. simpl. rewrite Hc. reflexivity.
  - rewrite lstrip_app by assumption. apply rstrip_snoc. assumption.
Qed.

Lemma strip_cons s c :
  p c = true -> Str.strip_with p (String c s) = Str.strip_with p s.
Proof. intros Hc. unfold Str.strip_with. simpl. rewrite Hc. reflexivity. Qed.

Lemma lstrip_head s : head_outside p (Str.lstrip_with p s).
Proof.
  induction s as [|a s IH]; [exact I|]. simpl.
  destruct (p a) eqn:E; [exact IH | exact E].
Qed.

Lemma lstrip_id s : head_outside p s -> Str.lstrip_with p s = s.
Proof. destruct s as [|a s]; [reflexivity|]. simpl. intros ->. reflexivity. Qed.

Lemma rstrip_head s : head_outside p s -> head_outside p (Str.rstrip_with p s).
Proof.
  destruct s as [|a s]; [trivial|]. simpl. intros Ha.
  destruct (Str.rstrip_with p s); [rewrite Ha|]; exact Ha.
Qed.

Lemma rstrip_idem s :
  Str.rstrip_with p (Str.rstrip_with p s) = Str.rstrip_with p s.
Proof.
  induction s as [|a s IH]; [reflexivity|]. rewrite rstrip_cons.
  destruct (Str.rstrip_with p s) as [|b r] eqn:E.
  - destruct (p a) eqn:Ha; [reflexivity|]. simpl. rewrite Ha. reflexivity.
  - rewrite rstrip_cons, IH. reflexivity.
Qed.

Lemma strip_idem s : Str.strip_with p (Str.strip_with p s) = Str.strip_with p s.
Proof.
  unfold Str.strip_with.
  rewrite (lstrip_id (Str.rstrip_with p (Str.lstrip_with p s))).
  - apply rstrip_idem.
  - apply rstrip_head, lstrip_head.
Qed.

Lemma all_lstrip (q : ascii -> bool) s :
  Str.all q s = true -> Str.all q (Str.lstrip_with p s) = true.
Proof.
  induction s as [|a s IH]; [reflexivity|]. simpl. intros H.
  destruct (p a); [|exact H]. apply andb_true_iff in H as [_ H]. auto.
Qed.

Lemma all_rstrip (q : ascii -> bool) s :
  Str.all q s = true -> Str.all q (Str.rstrip_with p s) = true.
Proof.
  induction s as [|a s IH]; [reflexivity|]. rewrite rstrip_cons. simpl.
  intros H. apply andb_true_iff in H as [Ha Hs]. specialize (IH Hs).
  destruct (Str.rstrip_with p s) as [|b r].
  - destruct (p a); [reflexivity|]. simpl. rewrite Ha. reflexivity.
  - simpl in *. rewrite Ha, IH. reflexivity.
Qed.

Lemma all_strip (q : ascii -> bool) s :
  Str.all q s = true -> Str.all q (Str.strip_with p s) = true.
Proof. intros H. apply all_rstrip, all_lstrip, H. Qed.

Lemma rstrip_outside s :
  Str.all (fun c => negb (p c)) s = true -> Str.rstrip_with p s = s.
Proof.
  induction s as [|a s IH]; [reflexivity|]. simpl.
  intros H. apply andb_true_iff in H as [Ha Hs]. rewrite (IH Hs).
  apply negb_true_iff in Ha. rewrite Ha. destruct s; reflexivity.
Qed.

(** Nothing is stripped from a string without a character of [p]. *)
Lemma strip_outside s :
  Str.all (fun c => negb (p c)) s = true -> Str.strip_with p s = s.
Proof.
  intros H. unfold Str.strip_with. rewrite lstrip_id.
  - apply rstrip_outside. assumption.
  - destruct s as [|a s]; [exact I|]. simpl in *.
    apply andb_true_iff in H as [Ha _]. apply negb_true_iff. assumption.
Qed.

End Strip.

(** ** [int] of [str] *)

Section IntStr.

Lemma digit_char_spec d :
  0 <= d < 10 ->
  Str.isdecimal (Str.digit_char d) = true /\ Str.digit_value (Str.digit_char d) = d.
Proof.
  intros H.
  assert (d = 0 \/ d = 1 \/ d = 2 \/ d = 3 \/ d = 4 \/ d = 5 \/ d = 6 \/ d = 7
          \/ d = 8 \/ d = 9) as E by lia.
  repeat (destruct E as [-> | E]; [split; reflexivity|]). subst. split; reflexivity.
Qed.

Lemma digits_go_all fuel n acc :
  Str.all Str.isdecimal acc = true ->
  Str.all Str.isdecimal (Str.digits_go fuel n acc) = true.
Proof.
  revert n acc. induction fuel as [|fuel IH]; intros n acc H; simpl.
  - rewrite H. rewrite (proj1 (digit_char_spec (n mod 10) (Z.mod_pos_bound n 10 eq_refl))).
    reflexivity.
  - assert (H' : Str.all Str.isdecimal (String (Str.digit_char (n mod 10)) acc) = true).
    { simpl. rewrite H.
      rewrite (proj1 (digit_char_spec (n mod 10) (Z.mod_pos_bound n 10 eq_refl))).
      reflexivity. }
    destruct (n <? 10); [exact H' | apply IH; exact H'].
Qed.

Lemma digits_go_nonempty fuel n acc : Str.digits_go fuel n acc <> "".
Proof.
  revert n acc. induction fuel as [|fuel IH]; intros n acc; simpl; [discriminate|].
  destruct (n <? 10); [discriminate | apply IH].
Qed.

Lemma int_digits_digit acc prev d s :
  0 <= d < 10 ->
  Str.int_digits acc prev (String (Str.digit_char d) s)
  = Str.int_digits (10 * acc + d) true s.
Proof.
  intros H. destruct (digit_char_spec d H) as [H1 H2].
  simpl. rewrite H1, H2. reflexivity.
Qed.

(** Reading the digits that [str] wrote gives the number back. *)
Lemma digits_go_read fuel n acc prev :
  0 <= n < 2 ^ (Z.of_nat fuel + 1) ->
  Str.int_digits 0 prev (Str.digits_go fuel n acc) = Str.int_digits n true acc.
Proof.
  revert n acc. induction fuel as [|fuel IH]; intros n acc H.
  - change (2 ^ (Z.of_nat 0 + 1)) with 2 in H. cbn [Str.digits_go].
    rewrite int_digits_digit by (apply Z.mod_pos_bound; lia).
    rewrite Z.mod_small by lia. reflexivity.
  - cbn [Str.digits_go]. destruct (Z.ltb_spec n 10) as [Hlt|Hge].
    + rewrite int_digits_digit by (apply Z.mod_pos_bound; lia).
      rewrite Z.mod_small by lia. reflexivity.
    + rewrite IH.
      * rewrite int_digits_digit by (apply Z.mod_pos_bound; lia).
        f_equal. pose proof (Z.div_mod n 10). lia.
      * split; [apply Z.div_pos; lia|].
        replace (Z.of_nat (S fuel) + 1) with (Z.succ (Z.of_nat fuel + 1)) in H by lia.
        rewrite Z.pow_succ_r in H by lia.
        apply Z.div_lt_upper_bound; lia.
Qed.

Lemma digits_read n prev :
  0 <= n -> Str.int_digits 0 prev (Str.digits n) = Some n.
Proof.
  intros Hn. unfold Str.digits. rewrite digits_go_read; [reflexivity|].
  split; [assumption|]. rewrite Z2Nat.id by apply Z.log2_nonneg.
  destruct (Z.eq_dec n 0) as [-> | Hne]; [reflexivity|].
  apply Z.log2_spec. lia.
Qed.

Lemma digits_all n : Str.all Str.isdecimal (Str.digits n) = true.
Proof. apply digits_go_all. reflexivity. Qed.

Lemma decimal_not_int_space c : Str.isdecimal c = true -> Str.int_space c = false.
Proof. destruct c as [[] [] [] [] [] [] [] []]; intros H; try discriminate H; reflexivity. Qed.

Lemma int_unsigned c s :
  Str.isdecimal c = true ->
  Str.all (fun c => negb (Str.int_space c)) (String c s) = true ->
  Str.int (String c s) = Str.int_digits 0 false (String c s).
Proof.
  intros Hc H. unfold Str.int. rewrite strip_outside by assumption.
  destruct c as [[] [] [] [] [] [] [] []]; try discriminate Hc; reflexivity.
Qed.

Lemma digits_outside_int_space s :
  Str.all Str.isdecimal s = true ->
  Str.all (fun c => negb (Str.int_space c)) s = true.
Proof.
  apply all_impl. intros c Hc. rewrite decimal_not_int_space by assumption. reflexivity.
Qed.

Lemma int_digits n : 0 <= n -> Str.int (Str.digits n) = Some n.
Proof.
  intros Hn. pose proof (digits_all n) as Hall.
  pose proof (digits_read n false Hn) as Hread.
  destruct (Str.digits n) as [|c s] eqn:E.
  - destruct (digits_go_nonempty _ _ _ E).
  - rewrite int_unsigned; [exact Hread | |].
    + simpl in Hall. apply andb_true_iff in Hall as [Hc _]. assumption.
    + apply digits_outside_int_space. assumption.
Qed.

(** [int(str(n)) == n] *)
Lemma int_of_int n : Str.int (Str.of_int n) = Some n.
Proof.
  unfold Str.of_int. destruct (Z.ltb_spec n 0) as [Hneg|Hpos].
  - unfold Str.int. rewrite strip_outside.
    + rewrite digits_read by lia. simpl. f_equal. lia.
    + simpl. apply digits_outside_int_space, digits_all.
  - apply int_digits. assumption.
Qed.

Lemma of_int_no_colon n : Str.mem ":" (Str.of_int n) = false.
Proof.
  assert (H : forall s, Str.all Str.isdecimal s = true -> Str.mem ":" s = false).
  { intros s. apply all_not_mem. reflexivity. }
  unfold Str.of_int. destruct (n <? 0).
  - simpl. apply H, digits_all.
  - apply H, digits_all.
Qed.

End IntStr.


(** ** The bracket search is the leftmost, longest match of ["\[.*\]"] *)

Section BracketSearch.

Import Regex RegexFacts.

Implicit Types (s t m : string) (c : ascii).

Lemma bracket_re_lang m :
  lang bracket_re m <-> exists y, m = String "[" (y +:+ "]") /\ Str.all dot y = true.
Proof.
  unfold bracket_re. split.
  - intros H.
    repeat match goal with
           | H : lang (Seq _ _) _ |- _ => inversion H; subst; clear H
           end.
    repeat match goal with
           | H : lang (Chr _) _ |- _ => apply lang_chr in H; subst
           | H : lang (Star (Class dot)) _ |- _ => apply lang_any in H
           end.
    eexists. split; [reflexivity | assumption].
  - intros (y & -> & Hy).
    change (String "[" (y +:+ "]")) with (String "[" "" +:+ y +:+ String "]" "").
    constructor; [apply lang_chr; reflexivity|].
    constructor; [apply lang_any; assumption | apply lang_chr; reflexivity].
Qed.

Lemma dots_then_rbracket_sound s m :
  dots_then_rbracket s = Some m ->
  exists y rest, m = y +:+ "]" /\ Str.all dot y = true /\ s = m +:+ rest.
Proof.
  revert m. induction s as [|c s IH]; intros m; [discriminate|].
  cbn [dots_then_rbracket].
  assert (Hhere : (if Ascii.eqb c "]" then Some "]" else None) = Some m ->
                  exists y rest, m = y +:+ "]" /\ Str.all dot y = true
                                 /\ String c s = m +:+ rest).
  { destruct (Ascii.eqb c "]") eqn:E; [|discriminate].
    apply Ascii.eqb_eq in E. subst c. intros [= <-].
    exists "", s. repeat split. }
  destruct (dot c) eqn:Hc; [|exact Hhere].
  destruct (dots_then_rbracket s) as [m'|]; [|exact Hhere].
  intros [= <-]. destruct (IH m' eq_refl) as (y & rest & -> & Hy & ->).
  exists (String c y), rest. split; [reflexivity|].
  split; [simpl; rewrite Hc, Hy; reflexivity | reflexivity].
Qed.

Lemma dots_then_rbracket_longest y rest :
  Str.all dot y = true ->
  exists m, dots_then_rbracket (y +:+ "]" +:+ rest) = Some m
            /\ (Str.length y < Str.length m)%nat.
Proof.
  induction y as [|c y IH]; intros Hy.
  - change (dots_then_rbracket ("" +:+ "]" +:+ rest))
      with (match dots_then_rbracket rest with
            | Some m => Some (String "]" m)
            | None => Some "]"
            end).
    destruct (dots_then_rbracket rest) as [m'|].
    + eexists. split; [reflexivity | simpl; lia].
    + eexists. split; [reflexivity | simpl; lia].
  - simpl in Hy. apply andb_true_iff in Hy as [Hc Hy].
    destruct (IH Hy) as (m & Hm & Hlen).
    rewrite str_app_cons. cbn [dots_then_rbracket]. rewrite Hc, Hm.
    eexists. split; [reflexivity | simpl; lia].
Qed.

Lemma bracket_at_sound s m :
  bracket_at s = Some m -> exists rest, s = m +:+ rest /\ lang bracket_re m.
Proof.
  destruct s as [|c s]; [discriminate|]. rewrite bracket_at_cons.
  destruct (Ascii.eqb c "[") eqn:E; [|discriminate].
  apply Ascii.eqb_eq in E. subst c.
  destruct (dots_then_rbracket s) as [m'|] eqn:Hm; [|discriminate].
  intros [= <-]. destruct (dots_then_rbracket_sound s m' Hm) as (y & rest & -> & Hy & ->).
  exists rest. split; [reflexivity|]. apply bracket_re_lang. eauto.
Qed.

Lemma bracket_at_longest m b :
  lang bracket_re m ->
  exists m', bracket_at (m +:+ b) = Some m' /\ (Str.length m <= Str.length m')%nat.
Proof.
  intros H. apply bracket_re_lang in H as (y & -> & Hy).
  destruct (dots_then_rbracket_longest y b Hy) as (m' & Hm & Hlen).
  exists (String "[" m'). rewrite str_app_cons, bracket_at_cons, str_app_assoc, Hm.
  split; [reflexivity|]. simpl. rewrite str_length_app. simpl. lia.
Qed.

(** What [re.search] returns for the pattern: a match, at the least start
    position where there is one, and the longest one there; no match when
    there is none. *)
Theorem search_bracket_spec s :
  match search_bracket s with
  | Some m =>
      exists a b,
        s = a +:+ m +:+ b /\ lang bracket_re m
        /\ forall a' m' b',
             s = a' +:+ m' +:+ b' -> lang bracket_re m' ->
             (Str.length a < Str.length a')%nat
             \/ (Str.length a = Str.length a' /\ (Str.length m' <= Str.length m)%nat)
  | None => forall a' m' b', s = a' +:+ m' +:+ b' -> ~ lang bracket_re m'
  end.
Proof.
  induction s as [|c s IH].
  - simpl. intros a' m' b' E H. apply bracket_re_lang in H as (y & -> & _).
    destruct a'; discriminate.
  - cbn [search_bracket]. destruct (bracket_at (String c s)) as [m|] eqn:Hat.
    + destruct (bracket_at_sound _ _ Hat) as (rest & E & Hm).
      exists "", rest. split; [exact E|]. split; [exact Hm|].
      intros a' m' b' E' Hm'. destruct a' as [|d a']; [|left; simpl; lia].
      right. split; [reflexivity|]. rewrite str_app_nil_l in E'.
      destruct (bracket_at_longest m' b' Hm') as (m2 & H2 & Hlen).
      rewrite <- E', Hat in H2. injection H2 as <-. exact Hlen.
    + assert (Hhead : forall m' b', String c s = m' +:+ b' -> ~ lang bracket_re m').
      { intros m' b' E' Hm'. destruct (bracket_at_longest m' b' Hm') as (m2 & H2 & _).
        rewrite <- E', Hat in H2. discriminate. }
      destruct (search_bracket s) as [m|].
      * destruct IH as (a & b & E & Hm & Hmin).
        exists (String c a), b. split; [rewrite E; reflexivity|]. split; [exact Hm|].
        intros a' m' b' E' Hm'. destruct a' as [|d a'].
        { destruct (Hhead m' b' E' Hm'). }
        rewrite str_app_cons in E'. injection E' as -> E'.
        destruct (Hmin a' m' b' E' Hm') as [H|[H1 H2]]; simpl; [left; lia | right; lia].
      * intros a' m' b' E' Hm'. destruct a' as [|d a'].
        { exact (Hhead m' b' E' Hm'). }
        rewrite str_app_cons in E'. injection E' as -> E'.
        exact (IH a' m' b' E' Hm').
Qed.

End BracketSearch.

(** ** From a record back to a header line *)

Section RoundTrip.

Import Regex.

Implicit Types (s t d : string) (c : ascii).

Lemma startswith_short t d :
  (Str.length t < Str.length d)%nat -> Str.startswith t d = false.
Proof.
  revert t. induction d as [|a d IH]; intros t H; [simpl in H; lia|].
  destruct t as [|b t]; [reflexivity|]. simpl in *.
  rewrite IH by lia. apply andb_false_r.
Qed.

Lemma contains_short t d :
  (Str.length t < Str.length d)%nat -> Str.contains d t = false.
Proof.
  induction t as [|b t IH]; intros H.
  - destruct d; [simpl in H; lia | reflexivity].
  - cbn [Str.contains]. rewrite startswith_short by assumption.
    simpl in H. rewrite IH by lia. reflexivity.
Qed.

Lemma contains_skip c d s t :
  Str.mem c s = false ->
  Str.contains (String c d) (s +:+ t) = Str.contains (String c d) t.
Proof.
  induction s as [|a s IH]; intros H; [reflexivity|].
  simpl in H. apply orb_false_iff in H as [Ha Hs].
  rewrite str_app_cons. cbn [Str.contains Str.startswith].
  rewrite Ascii.eqb_sym, Ha. simpl. auto.
Qed.

Lemma bracketed_absent_before before d :
  Str.mem "[" before = false ->
  Str.contains (String "[" (d +:+ "]"))
    (before +:+ Str.but_last (String "[" (d +:+ "]"))) = false.
Proof.
  intros H. rewrite contains_skip by assumption.
  apply contains_short. rewrite (length_but_last (String "[" (d +:+ "]"))) by discriminate.
  lia.
Qed.

(** The message of a record built from a header line: what precedes the
    bracket pair, stripped. *)
Lemma replace_bracketed before d eol :
  Str.mem "[" before = false -> is_eol eol ->
  Str.strip (Str.replace (String "[" (d +:+ "]")) ""
               (before +:+ String "[" (d +:+ "]") +:+ eol))
  = Str.strip before.
Proof.
  intros Hb Heol.
  rewrite replace_first; [|discriminate | apply bracketed_absent_before; assumption].
  rewrite str_app_nil_l, replace_absent.
  - destruct Heol as [-> | ->]; [rewrite str_app_nil_r; reflexivity|].
    apply strip_snoc. reflexivity.
  - apply contains_short. simpl. rewrite str_length_app. simpl.
    destruct Heol as [-> | ->]; simpl; lia.
Qed.

Lemma intersperse_nil s : Str.intersperse "" s = s.
Proof. induction s as [|a s IH]; [reflexivity|]. simpl. rewrite str_app_nil_l, IH. reflexivity. Qed.

Lemma count_replace_go c old k s :
  (Str.count c (Str.replace_go old "" k s) <= Str.count c s)%nat.
Proof.
  revert k. induction s as [|a s IH]; intros k; [reflexivity|].
  cbn [Str.replace_go]. destruct k as [|k].
  - destruct (Str.startswith (String a s) old).
    + rewrite str_app_nil_l. specialize (IH (Nat.pred (Str.length old))). simpl. lia.
    + specialize (IH 0%nat). simpl. lia.
  - specialize (IH k). simpl. lia.
Qed.

(** Deleting substrings adds no character. *)
Lemma count_replace c old s :
  (Str.count c (Str.replace old "" s) <= Str.count c s)%nat.
Proof.
  destruct old as [|a old]; [simpl; rewrite intersperse_nil; reflexivity|].
  apply count_replace_go.
Qed.

Lemma sliced_line_fields env l f rest :
  sliced_line env l = f :: rest ->
  Forall (fun x => Str.mem ":" x = false) rest
  /\ (Str.count ":" f <= 1)%nat
  /\ (is_win32 env = false -> Str.mem ":" f = false).
Proof.
  unfold sliced_line. pose proof (split_fields ":" l) as Hf.
  destruct (is_win32 env && (5 <? length (Str.split ":" l))%nat) eqn:E.
  - apply andb_true_iff in E as [Hw E]. apply Nat.ltb_lt in E.
    destruct (Str.split ":" l) as [|s0 [|s1 t]]; simpl in E; try lia.
    apply Forall_cons in Hf as [H0 Hf]. apply Forall_cons in Hf as [H1 Hf].
    simpl. intros [= <- <-]. split; [assumption|]. split.
    + rewrite count_app. simpl. rewrite str_app_nil_l.
      apply count_mem in H0, H1. lia.
    + congruence.
  - intros Hs. rewrite Hs in Hf. apply Forall_cons in Hf as [H0 Hf].
    split; [assumption|]. split; [apply count_mem in H0; lia | auto].
Qed.

(** The split of a line put together from five fields *)
Lemma sliced_line_of_fields env (f x1 x2 x3 x4 : string) :
  (Str.count ":" f <= 1)%nat ->
  (is_win32 env = false -> Str.mem ":" f = false) ->
  Str.mem ":" x1 = false -> Str.mem ":" x2 = false ->
  Str.mem ":" x3 = false -> Str.mem ":" x4 = false ->
  sliced_line env (f +:+ String ":" (x1 +:+ String ":" (x2 +:+ String ":"
                     (x3 +:+ String ":" x4))))
  = [f; x1; x2; x3; x4].
Proof.
  intros Hcount Hwin H1 H2 H3 H4. unfold sliced_line.
  rewrite !split_app, (split_absent ":" x1), (split_absent ":" x2),
    (split_absent ":" x3), (split_absent ":" x4) by assumption.
  destruct (Str.mem ":" f) eqn:Hf.
  - assert (Str.count ":" f = 1%nat) as Hone.
    { destruct (Str.count ":" f) as [|[|n]] eqn:E; [|reflexivity | lia].
      apply count_mem in E. congruence. }
    destruct (count_one _ _ Hone) as (f0 & f1 & -> & Hf0 & Hf1).
    rewrite split_app, (split_absent ":" f0), (split_absent ":" f1) by assumption.
    destruct (is_win32 env); [reflexivity|].
    specialize (Hwin eq_refl). congruence.
  - rewrite (split_absent ":" f) by assumption. simpl.
    rewrite andb_false_r. reflexivity.
Qed.

Lemma strip_no c s : Str.mem c s = false -> Str.mem c (Str.strip s) = false.
Proof. rewrite !mem_all. apply all_strip. Qed.

End RoundTrip.


Section RoundTripClaim.

Import Regex.

(** Building a record from the header line of a record whose fields could
    come from a header line *)
Lemma init_header_of env r :
  (Str.count ":" (filename r) <= 1)%nat ->
  (is_win32 env = false -> Str.mem ":" (filename r) = false) ->
  Str.mem ":" (note_type r) = false ->
  Str.mem ":" (note_info r) = false ->
  Str.mem ":" (diagnostic r) = false ->
  Str.mem "[" (note_info r) = false ->
  Str.all dot (diagnostic r) = true ->
  TidyNotification_init env (header_of r)
  = Ok {| diagnostic := diagnostic r;
          filename := Str.replace (os_getcwd env +:+ os_sep env) "" (filename r);
          line := line r; cols := cols r;
          note_type := Str.strip (note_type r);
          note_info := Str.strip (note_info r);
          fixit_lines := [] |}.
Proof.
  intros Hcount Hwin Hty Hinfo Hdiag Hbr Hdot.
  set (info := " " +:+ note_info r +:+ " [" +:+ diagnostic r +:+ "]").
  assert (Hs : sliced_line env (header_of r)
               = [filename r; Str.of_int (line r); Str.of_int (cols r);
                  " " +:+ note_type r; info]).
  { apply (sliced_line_of_fields env (filename r) (Str.of_int (line r))
             (Str.of_int (cols r)) (" " +:+ note_type r) info);
      try assumption; try apply of_int_no_colon.
    unfold info. rewrite !mem_app, Hinfo, Hdiag. reflexivity. }
  assert (Einfo : info = (" " +:+ note_info r +:+ " ")
                         +:+ String "[" (diagnostic r +:+ "]") +:+ "").
  { unfold info. str_norm. reflexivity. }
  assert (Hpad : Str.mem "[" (" " +:+ note_info r +:+ " ") = false).
  { rewrite !mem_app, Hbr. reflexivity. }
  assert (Hsearch : search_bracket info = Some (String "[" (diagnostic r +:+ "]"))).
  { rewrite Einfo, str_app_nil_r, search_bracket_first by assumption.
    pose proof (dots_then_rbracket_line (diagnostic r) "" Hdot (or_introl eq_refl)) as H.
    change (diagnostic r +:+ "]" +:+ "") with (diagnostic r +:+ "]") in H.
    rewrite H. reflexivity. }
  unfold TidyNotification_init. rewrite Hs, Hsearch. cbn [bind or_raise].
  rewrite !int_of_int. cbn [bind or_raise]. f_equal. f_equal.
  - unfold Str.slice_1_m1. simpl. apply but_last_snoc.
  - rewrite Einfo, replace_bracketed by (assumption || left; reflexivity).
    change (" " +:+ note_info r +:+ " ")
      with (String " " (note_info r) +:+ String " " "").
    unfold Str.strip. rewrite strip_snoc, strip_cons by reflexivity. reflexivity.
Qed.

End RoundTripClaim.

(** C9, as the code has it: the record built from a header line gives, when
    a header line is written from its fields and a record is built from
    that line, the same line, column, severity, check-id and message; the
    filename loses the working directory again, and comes back the same when
    it contains no further occurrence of it. *)
Theorem header_round_trip (env : Env) (l : string) (r : TidyNotification) :
  is_header l = true ->
  TidyNotification_init env l = Ok r ->
  exists r',
    TidyNotification_init env (header_of r) = Ok r'
    /\ line r' = line r /\ cols r' = cols r
    /\ note_type r' = note_type r
    /\ diagnostic r' = diagnostic r
    /\ note_info r' = note_info r
    /\ filename r' = Str.replace (os_getcwd env +:+ os_sep env) "" (filename r)
    /\ (Str.contains (os_getcwd env +:+ os_sep env) (filename r) = false -> r' = r).
Proof.
  intros Hh Hr.
  pose proof (init_fixit_lines env l r Hr) as Hfix.
  destruct (header_record env l r Hh Hr)
    as (f & ln & cl & ty & before & eol & Hs & Hb & Hdot & Heol & Hinfo & Hty
        & Hln & Hcl & Hf).
  rewrite replace_bracketed in Hinfo by assumption.
  destruct (sliced_line_fields env l f _ Hs) as (Hrest & Hcount & Hwin).
  apply Forall_cons in Hrest as [_ Hrest]. apply Forall_cons in Hrest as [_ Hrest].
  apply Forall_cons in Hrest as [Cty Hrest]. apply Forall_cons in Hrest as [Cinfo _].
  rewrite mem_app in Cinfo. apply orb_false_iff in Cinfo as [Cbefore Cinfo].
  simpl in Cinfo. rewrite mem_app in Cinfo. apply orb_false_iff in Cinfo as [Cdiag _].
  rewrite mem_app in Cdiag. apply orb_false_iff in Cdiag as [Cdiag _].
  pose proof (count_replace ":" (os_getcwd env +:+ os_sep env) f) as Hle.
  rewrite <- Hf in Hle.
  rewrite (init_header_of env r).
  - eexists. split; [reflexivity|]. simpl.
    assert (Ety : Str.strip (note_type r) = note_type r).
    { rewrite Hty. apply strip_idem. }
    assert (Einfo : Str.strip (note_info r) = note_info r).
    { rewrite Hinfo. apply strip_idem. }
    repeat split; try assumption.
    intros Hc. rewrite replace_absent by assumption. rewrite Ety, Einfo.
    destruct r. simpl in *. subst. reflexivity.
  - lia.
  - intros Hw. specialize (Hwin Hw). apply count_mem in Hwin. apply count_mem. lia.
  - rewrite Hty. apply strip_no. assumption.
  - rewrite Hinfo. apply strip_no. assumption.
  - assumption.
  - rewrite Hinfo. apply strip_no. assumption.
  - assumption.
Qed.

Lemma header_round_trip_witness :
  exists r',
    TidyNotification_init win
      (header_of {| diagnostic := "check-x"; filename := "C:\src\file.cpp";
                    line := 12; cols := 5; note_type := "warning";
                    note_info := "unused variable"; fixit_lines := [] |}) = Ok r'
    /\ line r' = 12 /\ cols r' = 5
    /\ note_type r' = "warning"
    /\ diagnostic r' = "check-x"
    /\ note_info r' = "unused variable"
    /\ filename r' = Str.replace (os_getcwd win +:+ os_sep win) "" "C:\src\file.cpp"
    /\ (Str.contains (os_getcwd win +:+ os_sep win) "C:\src\file.cpp" = false ->
        r' = {| diagnostic := "check-x"; filename := "C:\src\file.cpp";
                line := 12; cols := 5; note_type := "warning";
                note_info := "unused variable"; fixit_lines := [] |}).
Proof.
  apply (header_round_trip win
           "C:\src\file.cpp:12:5: warning: unused variable [check-x]
"
           {| diagnostic := "check-x"; filename := "C:\src\file.cpp";
              line := 12; cols := 5; note_type := "warning";
              note_info := "unused variable"; fixit_lines := [] |});
    vm_compute; reflexivity.
Defined.

(** C9 as stated fails on the filename: deleting the working directory from
    [//w/w/x.cpp] leaves [/w/x.cpp], which starts with the working directory
    again, and the record built from the header line of that record has the
    filename [x.cpp]. *)
Lemma round_trip_changes_filename :
  let l := "//w/w/x.cpp:1:2: warning: m [c]" in
  let r := {| diagnostic := "c"; filename := "/w/x.cpp"; line := 1; cols := 2;
              note_type := "warning"; note_info := "m"; fixit_lines := [] |} in
  is_header l = true
  /\ TidyNotification_init linux l = Ok r
  /\ header_of r = "/w/x.cpp:1:2: warning: m [c]"
  /\ TidyNotification_init linux (header_of r)
     = Ok {| diagnostic := "c"; filename := "x.cpp"; line := 1; cols := 2;
             note_type := "warning"; note_info := "m"; fixit_lines := [] |}.
Proof. repeat split; vm_compute; reflexivity. Qed.


(** * Further properties of the code *)

(** ** [__init__] on a line of the expected shape *)

(** X1: a line [<path>:<line>:<col>:<type>:<message>[<check>]], ended or not
    by a newline, whose path has no colon (one at most on win32), whose
    line and column are numbers for [int], and whose type, message and
    check have no colon, the message no [[] and the check no newline, gives
    the record of these fields: the check without its brackets, the path
    without the working directory, the two numbers, and the type and the
    message without the white space around them. *)
Theorem init_of_fields
    (env : Env) (path ln col ty msg id eol : string) (n m : Z) :
  (Str.count ":" path <= 1)%nat ->
  (is_win32 env = false -> Str.mem ":" path = false) ->
  Str.mem ":" ln = false -> Str.int ln = Some n ->
  Str.mem ":" col = false -> Str.int col = Some m ->
  Str.mem ":" ty = false ->
  Str.mem ":" msg = false -> Str.mem "[" msg = false ->
  Str.mem ":" id = false -> Str.all Regex.dot id = true ->
  is_eol eol ->
  TidyNotification_init env
    (path +:+ ":" +:+ ln +:+ ":" +:+ col +:+ ":" +:+ ty +:+ ":"
     +:+ msg +:+ "[" +:+ id +:+ "]" +:+ eol)
  = Ok {| diagnostic := id;
          filename := Str.replace (os_getcwd env +:+ os_sep env) "" path;
          line := n; cols := m;
          note_type := Str.strip ty;
          note_info := Str.strip msg;
          fixit_lines := [] |}.
Proof.
  intros Hcount Hwin Cln Hln Ccol Hcol Cty Cmsg Bmsg Cid Did Heol.
  set (info := msg +:+ String "[" (id +:+ "]" +:+ eol)).
  assert (Cinfo : Str.mem ":" info = false).
  { unfold info. rewrite mem_app, Cmsg. simpl. rewrite !mem_app, Cid.
    destruct Heol as [-> | ->]; reflexivity. }
  assert (Hs : sliced_line env
                 (path +:+ ":" +:+ ln +:+ ":" +:+ col +:+ ":" +:+ ty +:+ ":"
                  +:+ msg +:+ "[" +:+ id +:+ "]" +:+ eol)
               = [path; ln; col; ty; info]).
  { replace (msg +:+ "[" +:+ id +:+ "]" +:+ eol) with info
      by (unfold info; str_norm; reflexivity).
    apply (sliced_line_of_fields env path ln col ty info); assumption. }
  assert (Hsearch : Regex.search_bracket info = Some (String "[" (id +:+ "]"))).
  { unfold info. rewrite search_bracket_first by assumption.
    rewrite dots_then_rbracket_line by assumption. reflexivity. }
  unfold TidyNotification_init. rewrite Hs, Hsearch. cbn [bind or_raise].
  rewrite Hln, Hcol. cbn [bind or_raise]. f_equal. f_equal.
  - unfold Str.slice_1_m1. simpl. apply but_last_snoc.
  - replace info with (msg +:+ String "[" (id +:+ "]") +:+ eol)
      by (unfold info; str_norm; reflexivity).
    apply replace_bracketed; assumption.
Qed.

Lemma init_of_fields_witness :
  TidyNotification_init win
    ("C:\src\file.cpp" +:+ ":" +:+ "12" +:+ ":" +:+ "5" +:+ ":" +:+ " warning" +:+ ":"
     +:+ " unused variable " +:+ "[" +:+ "check-x" +:+ "]" +:+ String Str.newline "")
  = Ok {| diagnostic := "check-x";
          filename := Str.replace (os_getcwd win +:+ os_sep win) "" "C:\src\file.cpp";
          line := 12; cols := 5;
          note_type := Str.strip " warning";
          note_info := Str.strip " unused variable ";
          fixit_lines := [] |}.
Proof.
  apply (init_of_fields win "C:\src\file.cpp" "12" "5" " warning"
           " unused variable " "check-x" (String Str.newline "") 12 5);
    try reflexivity; try discriminate.
  right. reflexivity.
Defined.

(** ** The exceptions of [__init__] *)

Lemma has_bracket_pair_lang s :
  has_bracket_pair s <-> exists a m b, s = a +:+ m +:+ b /\ Regex.lang Regex.bracket_re m.
Proof.
  unfold has_bracket_pair. split.
  - intros (a & y & b & -> & Hy). exists a, (String "[" (y +:+ "]")), b. split.
    + str_norm. reflexivity.
    + apply bracket_re_lang. eauto.
  - intros (a & m & b & -> & Hm). apply bracket_re_lang in Hm as (y & -> & Hy).
    exists a, y, b. split; [str_norm; reflexivity | assumption].
Qed.

(** The search of line 41 fails exactly on a text without a bracket pair. *)
Lemma search_bracket_None s :
  Regex.search_bracket s = None <-> ~ has_bracket_pair s.
Proof.
  rewrite has_bracket_pair_lang. pose proof (search_bracket_spec s) as H.
  destruct (Regex.search_bracket s) as [m|].
  - split; [discriminate|]. intros Hn. exfalso. apply Hn.
    destruct H as (a & b & E & Hm & _). eauto.
  - split; [|reflexivity]. intros _ (a & m & b & E & Hm). exact (H a m b E Hm).
Qed.

Lemma search_bracket_Some s d :
  Regex.search_bracket s = Some d -> has_bracket_pair s.
Proof.
  intros H. apply has_bracket_pair_lang. pose proof (search_bracket_spec s) as Hs.
  rewrite H in Hs. destruct Hs as (a & b & E & Hm & _). eauto.
Qed.

(** X2: building a record raises [AttributeError] exactly when the line has
    five items and the last one has no bracket pair, whatever the line and
    the column are; it raises [ValueError] exactly when the line has not
    five items, or has a bracket pair and a line or a column that is no
    number. *)
Theorem init_raises (env : Env) (l : string) :
  (TidyNotification_init env l = Raise AttributeError <->
   exists f ln cl ty info,
     sliced_line env l = [f; ln; cl; ty; info] /\ ~ has_bracket_pair info)
  /\ (TidyNotification_init env l = Raise ValueError <->
      length (sliced_line env l) <> 5%nat
      \/ exists f ln cl ty info,
           sliced_line env l = [f; ln; cl; ty; info]
           /\ has_bracket_pair info
           /\ (Str.int ln = None \/ Str.int cl = None)).
Proof.
  unfold TidyNotification_init.
  destruct (sliced_line env l) as [|f [|ln [|cl [|ty [|info [|x rest]]]]]];
    try (split; [split; [discriminate | intros (? & ? & ? & ? & ? & ? & _); discriminate]
                | split; [intros _; left; simpl; lia | reflexivity]]).
  pose proof (search_bracket_None info) as Hnone.
  destruct (Regex.search_bracket info) as [d|] eqn:Hd; cbn [bind or_raise].
  - assert (Hpair : has_bracket_pair info).
    { exact (search_bracket_Some info d Hd). }
    split.
    + split.
      * destruct (Str.int ln); cbn [bind or_raise]; [|discriminate].
        destruct (Str.int cl); cbn [bind or_raise]; discriminate.
      * intros (? & ? & ? & ? & ? & [= <- <- <- <- <-] & Hn). contradiction.
    + split.
      * intros H. right. exists f, ln, cl, ty, info.
        split; [reflexivity|]. split; [assumption|].
        destruct (Str.int ln); [|left; reflexivity].
        destruct (Str.int cl); [discriminate H | right; reflexivity].
      * intros [H | (? & ? & ? & ? & ? & [= <- <- <- <- <-] & _ & [H|H])].
        -- simpl in H. lia.
        -- rewrite H. reflexivity.
        -- rewrite H. destruct (Str.int ln); reflexivity.
  - split.
    + split; [|reflexivity]. intros _. exists f, ln, cl, ty, info.
      split; [reflexivity|]. apply Hnone. reflexivity.
    + split; [discriminate|].
      intros [H | (? & ? & ? & ? & ? & [= <- <- <- <- <-] & Hp & _)].
      * simpl in H. lia.
      * exfalso. apply (proj1 Hnone); [reflexivity | assumption].
Qed.


Lemma init_raises_witness :
  TidyNotification_init linux "a.cpp:x:y: warning: no bracket" = Raise AttributeError
  /\ TidyNotification_init linux "a.cpp:x:2: warning: m [c]" = Raise ValueError.
Proof.
  destruct (init_raises linux "a.cpp:x:y: warning: no bracket") as [[_ H1] _].
  destruct (init_raises linux "a.cpp:x:2: warning: m [c]") as [_ [_ H2]].
  split.
  - apply H1. exists "a.cpp", "x", "y", " warning", " no bracket".
    split; [reflexivity|]. apply search_bracket_None. reflexivity.
  - apply H2. right. exists "a.cpp", "x", "2", " warning", " m [c]".
    split; [reflexivity|]. split; [|left; reflexivity].
    exists " m ", "c", "". split; reflexivity.
Defined.

(** ** Passes that raise, and passes one after the other *)

Lemma parse_loop_raised env lines :
  forall notification h e h1,
    parse_loop env lines notification h = Raised e h1 ->
    exists before l after,
      lines = before ++ l :: after
      /\ is_header l = true
      /\ TidyNotification_init env l = Raise e
      /\ parse_loop env before notification h = Returned h1.
Proof.
  induction lines as [|x lines IH]; intros notification h e h1 H; [discriminate|].
  simpl in H. destruct (is_header x) eqn:Hx.
  - destruct (TidyNotification_init env x) as [r|e'] eqn:Hr.
    + simpl in H. destruct (IH _ _ _ _ H) as (before & l & after & -> & Hl & He & Hb).
      exists (x :: before), l, after. split; [reflexivity|].
      split; [assumption|]. split; [assumption|].
      simpl. rewrite Hx, Hr. exact Hb.
    + injection H as -> ->. exists [], x, lines. repeat split; assumption.
  - assert (Hstep : exists h',
              parse_loop env lines notification h' = Raised e h1
              /\ forall before,
                   parse_loop env (x :: before) notification h
                   = parse_loop env before notification h').
    { destruct notification as [a|].
      - exists (fixit_append a x h). split; [exact H|].
        intros before. simpl. rewrite Hx. reflexivity.
      - exists h. split; [exact H|]. intros before. simpl. rewrite Hx. reflexivity. }
    destruct Hstep as (h' & H' & Hrun).
    destruct (IH _ _ _ _ H') as (before & l & after & -> & Hl & He & Hb).
    exists (x :: before), l, after. split; [reflexivity|].
    split; [assumption|]. split; [assumption|]. rewrite Hrun. exact Hb.
Qed.

(** X3: a pass ends with an exception exactly when its input has a header
    line from which no record can be built and the lines before that one
    make a pass that returns; the exception is the one of that line, and
    the heap is the one that the lines before it leave: their records stay
    in [GlobalParser.tidy_notes], and no line after it is read. *)
Theorem pass_raises_at_first_bad_header
    (env : Env) (lines : list string) (h0 h1 : Heap) (e : exn) :
  parse_tidy_output env lines h0 = Raised e h1 <->
  exists before l after,
    lines = before ++ l :: after
    /\ is_header l = true
    /\ TidyNotification_init env l = Raise e
    /\ parse_tidy_output env before h0 = Returned h1.
Proof.
  unfold parse_tidy_output. split.
  - apply parse_loop_raised.
  - intros (before & l & after & -> & Hl & He & Hb).
    destruct (parse_loop_app env before None h0 h1 Hb) as [n1 ->].
    simpl. rewrite Hl, He. reflexivity.
Qed.

Lemma pass_raises_at_first_bad_header_witness :
  parse_tidy_output linux
    (["a.cpp:1:2: warning: m [c]
"; "  x
"] ++ "a.cpp:3:4: warning: use std::move [d]
" :: ["b.cpp:5:6: error: n [e]
"]) empty_heap
  = Raised ValueError
      (extend empty_heap
         [ {| diagnostic := "c"; filename := "a.cpp"; line := 1; cols := 2;
              note_type := "warning"; note_info := "m"; fixit_lines := ["  x
"] |} ]).
Proof.
  apply (proj2 (pass_raises_at_first_bad_header linux _ empty_heap _ ValueError)).
  eexists _, _, _. split; [reflexivity|].
  repeat split; vm_compute; reflexivity.
Defined.

(** X4: a pass over an input that begins with a header line, or is empty,
    does after an earlier pass that returned what one pass over the two
    inputs, one after the other, does from the start: same outcome, same
    heap. *)
Theorem passes_compose (env : Env) (lines1 lines2 : list string) (h0 h1 : Heap) :
  parse_tidy_output env lines1 h0 = Returned h1 ->
  (lines2 = [] \/ exists l rest, lines2 = l :: rest /\ is_header l = true) ->
  parse_tidy_output env lines2 h1 = parse_tidy_output env (lines1 ++ lines2) h0.
Proof.
  unfold parse_tidy_output. intros H1 H2.
  destruct (parse_loop_app env lines1 None h0 h1 H1) as [n1 ->].
  destruct H2 as [-> | (l & rest & -> & Hl)]; [reflexivity|].
  simpl. rewrite Hl. reflexivity.
Qed.

Lemma passes_compose_witness :
  parse_tidy_output linux ["b.cpp:3:4: error: n [d]
"; "  y
"] (extend empty_heap
      [ {| diagnostic := "c"; filename := "a.cpp"; line := 1; cols := 2;
           note_type := "warning"; note_info := "m"; fixit_lines := ["  x
"] |} ])
  = parse_tidy_output linux
      (["a.cpp:1:2: warning: m [c]
"; "  x
"] ++ ["b.cpp:3:4: error: n [d]
"; "  y
"]) empty_heap.
Proof.
  apply (passes_compose linux).
  - vm_compute. reflexivity.
  - right. eexists _, _. split; [reflexivity | vm_compute; reflexivity].
Defined.

(** The input of a second pass must begin with a header line for that: its
    first lines go to the last record when they come in the same pass, and
    are dropped when they open a pass of their own. *)
Example passes_do_not_compose :
  let r x := {| diagnostic := "c"; filename := "a.cpp"; line := 1; cols := 2;
                note_type := "warning"; note_info := "m"; fixit_lines := x |} in
  parse_tidy_output linux ["  x
"] (extend empty_heap [r []]) = Returned (extend empty_heap [r []])
  /\ parse_tidy_output linux ["a.cpp:1:2: warning: m [c]
"; "  x
"] empty_heap = Returned (extend empty_heap [r ["  x
"]]).
Proof. split; vm_compute; reflexivity. Qed.

(** X5: a report without a header line leaves the heap as it is: no record
    is added, none is changed, and nothing is raised, whatever the lines
    are. *)
Theorem pass_without_header (env : Env) (lines : list string) (h : Heap) :
  Forall not_header lines ->
  parse_tidy_output env lines h = Returned h.
Proof.
  intros H. unfold parse_tidy_output.
  rewrite <- (app_nil_r lines). rewrite parse_loop_skip by assumption. reflexivity.
Qed.

Lemma pass_without_header_witness :
  parse_tidy_output linux ["3 warnings generated.
"; "Suppressed 3 warnings (3 in non-user code).
"] (extend empty_heap
      [ {| diagnostic := "c"; filename := "a.cpp"; line := 1; cols := 2;
           note_type := "warning"; note_info := "m"; fixit_lines := [] |} ])
  = Returned (extend empty_heap
      [ {| diagnostic := "c"; filename := "a.cpp"; line := 1; cols := 2;
           note_type := "warning"; note_info := "m"; fixit_lines := [] |} ]).
Proof.
  apply (pass_without_header linux).
  repeat constructor.
Defined.


(** ** The items of a header line *)

Section HeaderItems.

Import Regex.

Implicit Types (s t : string) (c : ascii).

Lemma split_all (q : ascii -> bool) c s :
  Str.all q s = true -> Forall (fun f => Str.all q f = true) (Str.split c s).
Proof.
  induction s as [|d s IH]; simpl; intros H.
  - repeat constructor.
  - apply andb_true_iff in H as [Hd Hs]. specialize (IH Hs).
    destruct (Ascii.eqb d c); [constructor; [reflexivity | assumption]|].
    destruct (Str.split c s) as [|f fs]; [repeat constructor; simpl; rewrite Hd; reflexivity|].
    apply Forall_cons in IH as [Hf Hfs]. constructor; [|assumption].
    simpl. rewrite Hd, Hf. reflexivity.
Qed.

(** A text without the separator, put behind [s], goes to the last field. *)
Lemma split_app_tail c s t :
  Str.mem c t = false ->
  exists front lst,
    Str.split c s = front ++ [lst] /\ Str.split c (s +:+ t) = front ++ [lst +:+ t].
Proof.
  intros Ht. induction s as [|d s (front & lst & E1 & E2)].
  - exists [], "". split; [reflexivity|].
    rewrite !str_app_nil_l. apply split_absent. assumption.
  - rewrite str_app_cons. simpl. destruct (Ascii.eqb d c).
    + exists ("" :: front), lst. rewrite E1, E2. split; reflexivity.
    + rewrite E1, E2. destruct front as [|f0 front].
      * exists [], (String d lst). split; reflexivity.
      * exists (String d f0 :: front), lst. split; reflexivity.
Qed.

(** The split of a header line: the items of the path, the two numbers, the
    severity behind its white space, and the items of the rest, of which
    the last ends the line with a []]. *)
Lemma header_split l :
  is_header l = true ->
  exists path_items ln col ws sev front s eol,
    Str.split ":" l
      = path_items ++ ln :: col :: String ws sev :: front ++ [s +:+ "]" +:+ eol]
    /\ path_items <> []
    /\ Forall (fun f => Str.all dot f = true) path_items
    /\ ln <> "" /\ Str.all digit ln = true
    /\ col <> "" /\ Str.all digit col = true
    /\ space ws = true /\ Str.all word sev = true
    /\ Forall (fun f => Str.all dot f = true) front
    /\ Str.all dot s = true
    /\ is_eol eol
    /\ (front = [] -> Str.mem "[" s = true).
Proof.
  intros H.
  assert (exists core eol, l = core +:+ eol /\ lang header_body core /\ is_eol eol)
    as (core & eol & -> & Hc & Heol).
  { apply is_header_lang in H as [H | (t & -> & H)].
    - exists l, "". rewrite str_app_nil_r. repeat split; [assumption | left; reflexivity].
    - exists t, (String Str.newline ""). repeat split; [assumption | right; reflexivity]. }
  apply header_body_lang in Hc
    as (path & ln & col & ws & sev & msg & id & -> & Hp & Hl1 & Hl2 & Hc1 & Hc2
        & Hws & _ & Hs2 & Hm & Hi).
  assert (E : (path +:+ ":" +:+ ln +:+ ":" +:+ col +:+ ":" +:+ String ws sev +:+ ":"
               +:+ msg +:+ "[" +:+ id +:+ "]") +:+ eol
              = path +:+ String ":" (ln +:+ String ":" (col +:+ String ":"
                  (String ws sev +:+ String ":" ((msg +:+ "[" +:+ id) +:+ "]" +:+ eol))))).
  { rewrite !str_app_assoc. reflexivity. }
  rewrite E. clear E.
  assert (Hcolon : forall (q : ascii -> bool) (x : string),
            q ":"%char = false -> Str.all q x = true -> Str.mem ":" x = false).
  { intros q x. apply all_not_mem. }
  destruct (split_app_tail ":" (msg +:+ "[" +:+ id) ("]" +:+ eol))
    as (front & lst & E1 & E2).
  { destruct Heol as [-> | ->]; reflexivity. }
  assert (Hall : Str.all dot (msg +:+ "[" +:+ id) = true).
  { rewrite !all_app, Hm, Hi. reflexivity. }
  pose proof (split_all dot ":" _ Hall) as Hitems. rewrite E1 in Hitems.
  apply Forall_app in Hitems as [Hfront Hlst]. apply Forall_cons in Hlst as [Hlst _].
  exists (Str.split ":" path), ln, col, ws, sev, front, lst, eol.
  split.
  { rewrite !split_app, E2.
    rewrite (split_absent ":" ln) by (apply (Hcolon digit); [reflexivity | assumption]).
    rewrite (split_absent ":" col) by (apply (Hcolon digit); [reflexivity | assumption]).
    rewrite (split_absent ":" (String ws sev)).
    - reflexivity.
    - simpl. rewrite (Hcolon word sev eq_refl Hs2), orb_false_r.
      apply Ascii.eqb_neq. intros ->. discriminate Hws. }
  split; [apply split_nonempty|].
  split; [apply split_all; assumption|].
  repeat (split; [assumption|]).
  intros ->. simpl in E1. apply split_one in E1 as [<- _].
  rewrite !mem_app. simpl. apply orb_true_r.
Qed.

Lemma digit_dot s : Str.all digit s = true -> Str.all dot s = true.
Proof.
  apply all_impl. intros c.
  destruct c as [[] [] [] [] [] [] [] []]; intros H; try discriminate H; reflexivity.
Qed.

Lemma word_dot s : Str.all word s = true -> Str.all dot s = true.
Proof.
  apply all_impl. intros c.
  destruct c as [[] [] [] [] [] [] [] []]; intros H; try discriminate H; reflexivity.
Qed.

Lemma digit_header_word s : Str.all digit s = true -> Str.all header_word s = true.
Proof. apply all_impl. intros c H. unfold header_word. rewrite H. reflexivity. Qed.

Lemma severity_header_word ws sev :
  space ws = true -> Str.all word sev = true ->
  Str.all header_word (String ws sev) = true.
Proof.
  intros Hws Hsev. simpl. unfold header_word at 1. rewrite Hws, orb_true_r. simpl.
  revert Hsev. apply all_impl. intros c H. unfold header_word. rewrite H.
  apply orb_true_r.
Qed.

Lemma strip_severity ws sev :
  space ws = true -> Str.all word sev = true ->
  Str.all dot (Str.strip (String ws sev)) = true.
Proof.
  intros Hws Hsev. unfold Str.strip. rewrite strip_cons by exact Hws.
  apply all_strip, word_dot. assumption.
Qed.

(** The five items of a header line from which a record is built: the
    first has no newline, the line and the column are made of digits, white
    space and word characters, and the stripped type has no newline. *)
Lemma header_items env l f ln cl ty info :
  is_header l = true ->
  sliced_line env l = [f; ln; cl; ty; info] ->
  Str.all dot f = true
  /\ Str.all header_word ln = true
  /\ Str.all header_word cl = true
  /\ Str.all dot (Str.strip ty) = true.
Proof.
  intros Hh Hs.
  destruct (header_split l Hh)
    as (P & ln0 & col0 & ws & sev & front & s & eol & E & HP & HPd & _ & Hln & _ & Hcol
        & Hws & Hsev & Hfront & _ & _ & _).
  unfold sliced_line in Hs. rewrite E in Hs. clear E.
  destruct P as [|p0 P]; [congruence|]. apply Forall_cons in HPd as [Hp0 HPd].
  destruct (is_win32 env && _) eqn:Hm.
  - (* the first two items were joined *)
    destruct P as [|p1 P].
    + (* the path is one item: it is joined with the line *)
      simpl in Hs. injection Hs as <- <- <- Hs.
      destruct front as [|b0 [|b1 front]]; simpl in Hs; try discriminate Hs.
      * injection Hs as <- <-.
        apply Forall_cons in Hfront as [Hb0 _].
        split; [rewrite !all_app, Hp0; simpl; apply digit_dot; assumption|].
        split; [apply digit_header_word; assumption|].
        split; [apply severity_header_word; assumption|].
        apply all_strip. assumption.
      * destruct front; discriminate Hs.
    + apply Forall_cons in HPd as [Hp1 HPd].
      destruct P as [|p2 P].
      * simpl in Hs. injection Hs as <- <- <- <- Hs.
        destruct front as [|b0 front]; [|destruct front; discriminate Hs].
        split; [rewrite !all_app, Hp0; simpl; assumption|].
        split; [apply digit_header_word; assumption|].
        split; [apply digit_header_word; assumption|].
        apply strip_severity; assumption.
      * exfalso. apply (f_equal length) in Hs. simpl in Hs.
        rewrite !length_app in Hs. simpl in Hs. rewrite !length_app in Hs. simpl in Hs. lia.
  - destruct P as [|p1 P].
    + simpl in Hs. injection Hs as <- <- <- <- Hs.
      destruct front as [|b0 front]; [|destruct front; discriminate Hs].
      split; [assumption|].
      split; [apply digit_header_word; assumption|].
      split; [apply digit_header_word; assumption|].
      apply strip_severity; assumption.
    + exfalso. apply (f_equal length) in Hs. simpl in Hs.
      rewrite !length_app in Hs. simpl in Hs. rewrite !length_app in Hs. simpl in Hs. lia.
Qed.

End HeaderItems.


(** ** Numbers, colons and newlines of a header line *)

Section HeaderNumbers.

Import Regex.

Implicit Types (s t : string) (c : ascii).

Lemma digit_value_nonneg c : Str.isdecimal c = true -> 0 <= Str.digit_value c.
Proof.
  unfold Str.isdecimal, Str.digit_value. intros H.
  apply andb_true_iff in H as [H _]. apply N.leb_le in H. lia.
Qed.

Lemma int_digits_nonneg s :
  forall acc prev n, Str.int_digits acc prev s = Some n -> 0 <= acc -> 0 <= n.
Proof.
  induction s as [|a s IH]; intros acc prev n; simpl.
  - destruct prev; [intros [= <-]; trivial | discriminate].
  - destruct (Str.isdecimal a) eqn:Ha.
    + intros H Hacc. apply (IH _ _ _ H). pose proof (digit_value_nonneg a Ha). lia.
    + destruct (Ascii.eqb a "_"); [|discriminate].
      destruct prev; [|discriminate]. intros H Hacc. apply (IH _ _ _ H Hacc).
Qed.

(** [int] gives no negative number for a text without a minus sign. *)
Lemma int_nonneg s n : Str.int s = Some n -> Str.mem "-" s = false -> 0 <= n.
Proof.
  unfold Str.int. intros H Hm.
  assert (Hm' : Str.mem "-" (Str.strip_with Str.int_space s) = false).
  { revert Hm. rewrite !mem_all. apply all_strip. }
  destruct (Str.strip_with Str.int_space s) as [|c ds].
  - discriminate H.
  - simpl in Hm'. apply orb_false_iff in Hm' as [Hc _].
    destruct c as [[] [] [] [] [] [] [] []]; try discriminate Hc;
      apply (int_digits_nonneg _ _ _ _ H); lia.
Qed.

Lemma int_digits_decimal s :
  Str.all Str.isdecimal s = true ->
  forall acc prev, s <> "" \/ prev = true -> exists n, Str.int_digits acc prev s = Some n.
Proof.
  induction s as [|a s IH]; intros Hall acc prev Hne; simpl.
  - destruct Hne as [Hne | ->]; [congruence | eauto].
  - simpl in Hall. apply andb_true_iff in Hall as [Ha Hs]. rewrite Ha.
    apply IH; [assumption | right; reflexivity].
Qed.

(** A non-empty run of decimal digits is a number for [int]. *)
Lemma int_of_decimal s :
  s <> "" -> Str.all Str.isdecimal s = true -> exists n, Str.int s = Some n.
Proof.
  intros Hne Hall. destruct s as [|c s]; [congruence|].
  rewrite int_unsigned.
  - apply int_digits_decimal; [assumption | left; assumption].
  - simpl in Hall. apply andb_true_iff in Hall as [Hc _]. assumption.
  - apply digits_outside_int_space. assumption.
Qed.

Lemma search_bracket_line_Some s eol :
  Str.all dot s = true -> Str.mem "[" s = true -> is_eol eol ->
  exists d, search_bracket (s +:+ "]" +:+ eol) = Some d.
Proof.
  intros Hs Hm Heol. destruct (first_occurrence _ _ Hm) as (a & b & -> & Ha).
  rewrite str_app_assoc, str_app_cons, search_bracket_first by assumption.
  rewrite all_app in Hs. apply andb_true_iff in Hs as [_ Hs]. simpl in Hs.
  rewrite dots_then_rbracket_line by assumption. eauto.
Qed.

Lemma all_replace_go (q : ascii -> bool) old k s :
  Str.all q s = true -> Str.all q (Str.replace_go old "" k s) = true.
Proof.
  revert k. induction s as [|a s IH]; intros k H; [reflexivity|].
  simpl in H. apply andb_true_iff in H as [Ha Hs].
  cbn [Str.replace_go]. destruct k as [|k]; [|apply IH; assumption].
  destruct (Str.startswith (String a s) old).
  - rewrite str_app_nil_l. apply IH. assumption.
  - simpl. rewrite Ha. apply IH. assumption.
Qed.

(** Deleting substrings brings no character in. *)
Lemma all_replace (q : ascii -> bool) old s :
  Str.all q s = true -> Str.all q (Str.replace old "" s) = true.
Proof.
  destruct old as [|a old]; [simpl; rewrite intersperse_nil; trivial|].
  apply all_replace_go.
Qed.

Lemma of_int_dot n : Str.all dot (Str.of_int n) = true.
Proof.
  unfold Str.of_int. destruct (n <? 0); [simpl|]; apply digit_dot, digits_all.
Qed.

(** The message of a record built from a header line has no newline. *)
Lemma header_message_dot env l r :
  is_header l = true ->
  TidyNotification_init env l = Ok r ->
  Str.all dot (note_info r) = true.
Proof.
  intros Hh Hr.
  apply init_fields in Hr
    as (f & ln & cl & ty & info & d & Hs & Hd & _ & Hinfo & _).
  destruct (header_last_item l Hh) as (s & eol & Hl & Hall & Heol).
  rewrite <- (sliced_line_last env), Hs in Hl. simpl in Hl. injection Hl as ->.
  destruct (search_bracket_line s eol d Hall Heol Hd) as (a & b & -> & Ha & ->).
  rewrite Hinfo.
  replace ((a +:+ String "[" b) +:+ "]" +:+ eol)
    with (a +:+ String "[" (b +:+ "]") +:+ eol) by (str_norm; reflexivity).
  rewrite replace_bracketed by assumption.
  rewrite all_app in Hall. apply andb_true_iff in Hall as [Hall _].
  apply all_strip. assumption.
Qed.

End HeaderNumbers.

(** X6: a header line has four colons at least. With exactly four, and a
    line and a column number of no more digits than the interpreter
    converts, a record is built from it on every platform; on a platform
    other than win32, a record is built from it only then: a colon in the
    path or in the message makes [__init__] raise. *)
Theorem header_with_four_colons (env : Env) (l : string) :
  is_header l = true ->
  (4 <= Str.count ":" l)%nat
  /\ (Str.count ":" l = 4%nat ->
      (Str.length (nth 1 (sliced_line env l) "") <= Str.int_max_str_digits)%nat ->
      (Str.length (nth 2 (sliced_line env l) "") <= Str.int_max_str_digits)%nat ->
      exists r, TidyNotification_init env l = Ok r)
  /\ (is_win32 env = false ->
      (exists r, TidyNotification_init env l = Ok r) -> Str.count ":" l = 4%nat).
Proof.
  intros Hh.
  destruct (header_split l Hh)
    as (P & ln & col & ws & sev & front & s & eol & E & HP & _ & Hln1 & Hln2 & Hcol1
        & Hcol2 & _ & _ & _ & Hs & Heol & Hbr).
  pose proof (length_split ":" l) as Hlen. rewrite E in Hlen.
  rewrite length_app in Hlen. simpl in Hlen. rewrite length_app in Hlen. simpl in Hlen.
  destruct P as [|p0 P]; [congruence|]. simpl in Hlen.
  split; [lia|]. split.
  - intros Hfour _ _.
    destruct P as [|p1 P]; [|simpl in Hlen; lia].
    destruct front as [|b0 front]; [|simpl in Hlen; lia].
    simpl in E.
    destruct (int_of_decimal ln Hln1 Hln2) as [n Hn].
    destruct (int_of_decimal col Hcol1 Hcol2) as [m Hm].
    destruct (search_bracket_line_Some s eol Hs (Hbr eq_refl) Heol) as [d Hd].
    unfold TidyNotification_init, sliced_line. rewrite E. simpl length.
    rewrite andb_false_r, Hd. cbn [bind or_raise]. rewrite Hn, Hm.
    cbn [bind or_raise]. eauto.
  - intros Hwin [r Hr]. apply init_fields in Hr as (f & a & b & c & d & x & Hsl & _).
    unfold sliced_line in Hsl. rewrite Hwin in Hsl. simpl in Hsl.
    pose proof (length_split ":" l) as Hlen'. rewrite Hsl in Hlen'. simpl in Hlen'. lia.
Qed.

Lemma header_with_four_colons_witness :
  (4 <= Str.count ":" "src/a.cpp:12:5: warning: unused variable [check-x]")%nat
  /\ (exists r, TidyNotification_init linux
                  "src/a.cpp:12:5: warning: unused variable [check-x]" = Ok r)
  /\ Str.count ":" "src/a.cpp:12:5: warning: unused variable [check-x]" = 4%nat.
Proof.
  destruct (header_with_four_colons linux
              "src/a.cpp:12:5: warning: unused variable [check-x]")
    as (H1 & H2 & H3).
  - vm_compute. reflexivity.
  - assert (H4 : exists r, TidyNotification_init linux
                   "src/a.cpp:12:5: warning: unused variable [check-x]" = Ok r).
    { apply H2; [reflexivity | apply Nat.leb_le; vm_compute; reflexivity..]. }
    split; [exact H1|]. split; [exact H4|].
    apply H3; [reflexivity | exact H4].
Defined.

(** X7: the line and the column of a record built from a header line are
    not negative, on every platform; nothing keeps them from being zero. *)
Theorem header_numbers_not_negative (env : Env) (l : string) (r : TidyNotification) :
  is_header l = true ->
  TidyNotification_init env l = Ok r ->
  0 <= line r /\ 0 <= cols r.
Proof.
  intros Hh Hr.
  pose proof Hr as Hf. apply init_fields in Hf
    as (f & ln & cl & ty & info & d & Hs & _ & _ & _ & _ & Hln & Hcl & _).
  destruct (header_items env l f ln cl ty info Hh Hs) as (_ & Wln & Wcl & _).
  split.
  - apply (int_nonneg ln); [assumption|]. revert Wln. apply all_not_mem. reflexivity.
  - apply (int_nonneg cl); [assumption|]. revert Wcl. apply all_not_mem. reflexivity.
Qed.

Lemma header_numbers_not_negative_witness :
  0 <= line {| diagnostic := "c"; filename := "a.cpp"; line := 0; cols := 0;
               note_type := "warning"; note_info := "m"; fixit_lines := [] |}
  /\ 0 <= cols {| diagnostic := "c"; filename := "a.cpp"; line := 0; cols := 0;
                  note_type := "warning"; note_info := "m"; fixit_lines := [] |}.
Proof.
  apply (header_numbers_not_negative linux "a.cpp:0:0: warning: m [c]");
    vm_compute; reflexivity.
Defined.

(** X8: the log command of a record built from a header line is one line:
    it has no newline, on every platform. *)
Theorem log_command_is_one_line (env : Env) (l : string) (r : TidyNotification) :
  is_header l = true ->
  TidyNotification_init env l = Ok r ->
  Str.mem Str.newline (log_command r) = false.
Proof.
  intros Hh Hr.
  pose proof (header_message_dot env l r Hh Hr) as Hinfo.
  destruct (header_record env l r Hh Hr)
    as (f & ln & cl & ty & before & eol & Hs & _ & Hdiag & _ & _ & Hty & _ & _ & Hf).
  destruct (header_items env l f ln cl ty _ Hh Hs) as (Df & _ & _ & Dty).
  assert (Hfile : Str.all Regex.dot (filename r) = true).
  { rewrite Hf. apply all_replace. assumption. }
  assert (Htype : Str.all Regex.dot (note_type r) = true).
  { rewrite Hty. assumption. }
  apply mem_all. change (fun d => negb (Ascii.eqb d Str.newline)) with Regex.dot.
  unfold log_command. rewrite log_command_format. simpl default.
  rewrite !all_app, Hfile, Hdiag, Hinfo, !of_int_dot.
  destruct (Str.startswith (note_type r) "note"); [reflexivity|].
  rewrite Htype. reflexivity.
Qed.

Lemma log_command_is_one_line_witness :
  Str.mem Str.newline
    (log_command {| diagnostic := "check-x"; filename := "src/a.cpp"; line := 12;
                    cols := 5; note_type := "warning"; note_info := "unused variable";
                    fixit_lines := [] |}) = false.
Proof.
  apply (log_command_is_one_line linux
           "src/a.cpp:12:5: warning: unused variable [check-x]
"); vm_compute; reflexivity.
Defined.


(** ** [os.path.splitext] and [__repr__] *)

Example splitext_examples :
  let posix := os_path_splitext linux in
  let nt := os_path_splitext win in
  posix "a.cpp" = ("a", ".cpp") /\ nt "a.cpp" = ("a", ".cpp")
  /\ posix "a" = ("a", "") /\ posix "" = ("", "")
  /\ posix "a.tar.gz" = ("a.tar", ".gz")
  /\ posix ".bashrc" = (".bashrc", "") /\ nt "..a" = ("..a", "")
  /\ posix "..." = ("...", "")
  /\ posix "dir.d/file" = ("dir.d/file", "") /\ nt "dir.d/file" = ("dir.d/file", "")
  /\ posix "dir.d/file.c" = ("dir.d/file", ".c")
  /\ posix "/w/.x" = ("/w/.x", "")
  /\ posix "a." = ("a", ".")
  /\ posix "a/.b.c" = ("a/.b", ".c")
  /\ posix "x\y.z/w" = ("x\y.z/w", "") /\ nt "x\y.z/w" = ("x\y.z/w", "")
  /\ posix "x/y.z\w" = ("x/y", ".z\w") /\ nt "x/y.z\w" = ("x/y.z\w", "")
  /\ nt "C:\src\file.cpp" = ("C:\src\file", ".cpp")
  /\ posix "a.b\c" = ("a", ".b\c") /\ nt "a.b\c" = ("a.b\c", "")
  /\ posix "..x.y" = ("..x", ".y")
  /\ posix "\.a" = ("\", ".a") /\ nt "\.a" = ("\.a", "")
  /\ posix "a/..b" = ("a/..b", "") /\ posix "a.b/" = ("a.b/", "").
Proof. repeat split; reflexivity. Qed.

Example repr_example :
  repr linux {| diagnostic := "check-x"; filename := "src/a.cpp"; line := 12;
                cols := 5; note_type := "warning"; note_info := "unused variable";
                fixit_lines := ["  int x;
"; "  ^
"] |}
  = "<details open>
<summary><strong>src/a.cpp:12:5:</strong> warning: [check-x]

> unused variable
</summary><p>

```.cpp
  int x;
  ^
```
</p>
</details>

".
Proof. reflexivity. Qed.


Section Splitext.

Implicit Types (s t p : string) (c : ascii).

Lemma rfind_lower c s : -1 <= Str.rfind c s.
Proof.
  induction s as [|a s IH]; simpl; [lia|].
  destruct (Z.leb_spec 0 (Str.rfind c s)); [lia|].
  destruct (Ascii.eqb a c); lia.
Qed.

Lemma rfind_mem c s : Str.mem c s = true -> 0 <= Str.rfind c s.
Proof.
  induction s as [|a s IH]; simpl; [discriminate|].
  intros H. destruct (Z.leb_spec 0 (Str.rfind c s)) as [Hr|Hr]; [lia|].
  destruct (Ascii.eqb a c); [lia|]. simpl in H. specialize (IH H). lia.
Qed.

Lemma rfind_app_ge c s t :
  Str.mem c t = true -> Z.of_nat (Str.length s) <= Str.rfind c (s +:+ t).
Proof.
  intros Ht. induction s as [|a s IH].
  - rewrite str_app_nil_l. simpl. apply rfind_mem. assumption.
  - rewrite str_app_cons. cbn [Str.rfind Str.length].
    destruct (Z.leb_spec 0 (Str.rfind c (s +:+ t))); lia.
Qed.

(** [rfind] finds the last occurrence. *)
Lemma rfind_spec c s :
  0 <= Str.rfind c s ->
  exists a b, s = a +:+ String c b
              /\ Str.rfind c s = Z.of_nat (Str.length a)
              /\ Str.mem c b = false.
Proof.
  induction s as [|d s IH]; simpl; [lia|].
  destruct (Z.leb_spec 0 (Str.rfind c s)) as [Hr|Hr].
  - intros _. destruct (IH Hr) as (a & b & -> & E & Hb).
    exists (String d a), b. split; [reflexivity|]. split; [|assumption].
    rewrite E. simpl Str.length. lia.
  - destruct (Ascii.eqb d c) eqn:Hd; [|lia]. intros _.
    apply Ascii.eqb_eq in Hd. subst d. exists "", s.
    split; [reflexivity|]. split; [reflexivity|].
    destruct (Str.mem c s) eqn:Hm; [|reflexivity].
    apply rfind_mem in Hm. lia.
Qed.

Lemma take_app_length s t : Str.take (Str.length s) (s +:+ t) = s.
Proof.
  induction s as [|a s IH]; [destruct t; reflexivity|].
  rewrite str_app_cons. simpl. rewrite IH. reflexivity.
Qed.

(** What [_splitext] returns: the two parts make [p]; the second is empty,
    or begins with the last [extsep] of [p] and has no separator. *)
Lemma splitext_generic_spec p sep altsep extsep :
  let '(root, ext) := splitext_generic p sep altsep extsep in
  root +:+ ext = p
  /\ (ext = ""
      \/ exists e, ext = String extsep e
                   /\ Str.mem extsep e = false
                   /\ Str.mem sep e = false
                   /\ forall a, altsep = Some a -> Str.mem a e = false)
  /\ (Str.mem extsep p = false -> ext = "").
Proof.
  unfold splitext_generic.
  set (sepIndex := match altsep with
                   | Some a => Z.max (Str.rfind sep p) (Str.rfind a p)
                   | None => Str.rfind sep p
                   end).
  assert (Hsep : Str.rfind sep p <= sepIndex).
  { unfold sepIndex. destruct altsep; lia. }
  assert (Halt : forall a, altsep = Some a -> Str.rfind a p <= sepIndex).
  { intros a ->. unfold sepIndex. lia. }
  assert (Hlow : -1 <= sepIndex).
  { pose proof (rfind_lower sep p). lia. }
  clearbody sepIndex.
  destruct (Z.ltb_spec sepIndex (Str.rfind extsep p)) as [Hlt|Hge];
    [|rewrite str_app_nil_r; repeat split; left; reflexivity].
  destruct (only_dots p extsep (sepIndex + 1) _);
    [rewrite str_app_nil_r; repeat split; left; reflexivity|].
  destruct (rfind_spec extsep p) as (a & b & -> & E & Hb); [lia|].
  rewrite E in *. rewrite Nat2Z.id.
  rewrite take_app_length, drop_app_length.
  split; [reflexivity|]. split.
  - right. exists b. split; [reflexivity|]. split; [assumption|].
    assert (Hno : forall c, Str.rfind c (a +:+ String extsep b) <= sepIndex ->
                            Str.mem c b = false).
    { intros c Hc. destruct (Str.mem c b) eqn:Hm; [|reflexivity].
      pose proof (rfind_app_ge c (a +:+ String extsep "") b Hm) as Hge.
      rewrite str_length_app, str_app_assoc in Hge.
      change (String extsep "" +:+ b) with (String extsep b) in Hge.
      change (Str.length (String extsep "")) with 1%nat in Hge. lia. }
    split; [apply Hno; assumption|]. intros c Hc. apply Hno, Halt, Hc.
  - rewrite mem_app. simpl. rewrite Ascii.eqb_refl, orb_true_r. discriminate.
Qed.

End Splitext.

(** X9: the language of the fenced code in the block of a record is the
    second part of [os.path.splitext]: the filename is the first part
    followed by it, and it is empty -- always when the filename has no
    dot -- or starts at the last dot of the filename and has no slash after
    it, nor a backslash on win32. *)
Theorem language_hint (env : Env) (p : string) :
  let '(root, ext) := os_path_splitext env p in
  root +:+ ext = p
  /\ (ext = ""
      \/ exists e, ext = String "." e
                   /\ Str.mem "." e = false
                   /\ Str.mem "/" e = false
                   /\ (is_win32 env = true -> Str.mem "\" e = false))
  /\ (Str.mem "." p = false -> ext = "").
Proof.
  unfold os_path_splitext. destruct (is_win32 env).
  - pose proof (splitext_generic_spec p "\" (Some "/"%char) ".") as H.
    destruct (splitext_generic p "\" (Some "/"%char) ".") as [root ext].
    destruct H as (H1 & H2 & H3). split; [exact H1|]. split; [|exact H3].
    destruct H2 as [H2 | (e & He & Hd & Hs & Ha)]; [left; exact H2|].
    right. exists e. split; [exact He|]. split; [exact Hd|].
    split; [apply Ha; reflexivity | intros _; exact Hs].
  - pose proof (splitext_generic_spec p "/" None ".") as H.
    destruct (splitext_generic p "/" None ".") as [root ext].
    destruct H as (H1 & H2 & H3). split; [exact H1|]. split; [|exact H3].
    destruct H2 as [H2 | (e & He & Hd & Hs & Ha)]; [left; exact H2|].
    right. exists e. split; [exact He|]. split; [exact Hd|].
    split; [exact Hs | discriminate].
Qed.

Lemma language_hint_witness :
  (os_path_splitext win "C:\src.d\file.tar.gz").2 = ".gz"
  /\ (os_path_splitext linux "src.d/Makefile").2 = "".
Proof.
  pose proof (language_hint win "C:\src.d\file.tar.gz") as H1.
  pose proof (language_hint linux "src.d/Makefile") as H2.
  split; reflexivity.
Defined.

Lemma join_empty_cons x l : Str.join "" (x :: l) = x +:+ Str.join "" l.
Proof. destruct l; simpl; [rewrite str_app_nil_r|]; reflexivity. Qed.

Lemma join_empty_app l1 l2 : Str.join "" (l1 ++ l2) = Str.join "" l1 +:+ Str.join "" l2.
Proof.
  induction l1 as [|x l1 IH]; [reflexivity|].
  rewrite <- app_comm_cons, !join_empty_cons, IH, str_app_assoc. reflexivity.
Qed.

Lemma repr_format env self :
  Str.format repr_template (repr_args env self) =
  Some ("<details open>
<summary><strong>" +:+ filename self +:+ ":" +:+ Str.of_int (line self) +:+ ":"
        +:+ Str.of_int (cols self) +:+ ":</strong> " +:+ note_type self +:+ ": ["
        +:+ diagnostic self +:+ "]

> " +:+ note_info self +:+ "
</summary><p>

```" +:+ (os_path_splitext env (filename self)).2 +:+ "
" +:+ Str.join "" (fixit_lines self) +:+ "```
</p>
</details>

").
Proof.
  unfold repr_template, repr_args. cbn [Str.format fmap option_fmap option_map].
  reflexivity.
Qed.

(** X10: the readable block of the record of a block of the input: the
    location, the severity, the check and the message in the summary, and
    between the fences, behind the extension of the filename, the lines of
    the block after its header line, as they are, one after the other with
    nothing between them. *)
Theorem repr_of_block (env : Env) (b : string * list string) (r : TidyNotification) :
  record_of_block env b r ->
  repr env r =
  "<details open>
<summary><strong>" +:+ filename r +:+ ":" +:+ Str.of_int (line r) +:+ ":"
  +:+ Str.of_int (cols r) +:+ ":</strong> " +:+ note_type r +:+ ": ["
  +:+ diagnostic r +:+ "]

> " +:+ note_info r +:+ "
</summary><p>

```" +:+ (os_path_splitext env (filename r)).2 +:+ "
" +:+ fold_right String.append "" b.2 +:+ "```
</p>
</details>

".
Proof.
  intros [_ Hf]. unfold repr. rewrite repr_format. simpl default. rewrite Hf.
  assert (E : forall l, Str.join "" l = fold_right String.append "" l).
  { induction l as [|x l IH]; [reflexivity|]. rewrite join_empty_cons, IH. reflexivity. }
  rewrite E. reflexivity.
Qed.

Lemma repr_of_block_witness :
  repr linux {| diagnostic := "c"; filename := "a.cpp"; line := 1; cols := 2;
                note_type := "warning"; note_info := "m";
                fixit_lines := ["  int x;
"; "  ^
"] |}
  = "<details open>
<summary><strong>a.cpp:1:2:</strong> warning: [c]

> m
</summary><p>

```.cpp
  int x;
  ^
```
</p>
</details>

".
Proof.
  rewrite (repr_of_block linux ("a.cpp:1:2: warning: m [c]
", ["  int x;
"; "  ^
"])); [reflexivity|]. split; vm_compute; reflexivity.
Defined.

(** ** The script *)

Lemma print_fixits_fold env (count : string) (l : list TidyNotification) stdout :
  fold_left
    (fun out notification =>
       print [repr env notification] (print ["found"; count; "tidy_notes"] out))
    l stdout
  = stdout +:+ Str.join ""
      ((fun r => "found " +:+ count +:+ " tidy_notes" +:+ String Str.newline ""
                 +:+ repr env r +:+ String Str.newline "") <$> l).
Proof.
  revert stdout. induction l as [|r l IH]; intros stdout.
  - simpl. rewrite str_app_nil_r. reflexivity.
  - cbn [fold_left]. rewrite IH, fmap_cons, join_empty_cons.
    unfold print. cbn [Str.join]. str_norm. reflexivity.
Qed.

Lemma pass_without_header_loop env lines h :
  Forall not_header lines -> parse_tidy_output env lines h = Returned h.
Proof.
  intros H. unfold parse_tidy_output.
  rewrite <- (app_nil_r lines). rewrite parse_loop_skip by assumption. reflexivity.
Qed.

(** X11: the script, started with an empty [GlobalParser.tidy_notes] on a
    report from which the pass returns, prints for every header line of the
    report, in order, the line [found N tidy_notes], [N] being the number of
    header lines of the whole report, and then the block of the record of
    that header line and an empty line; it prints nothing for a report
    without a header line. *)
Theorem main_prints_every_record
    (env : Env) (lines : list string) (h1 : Heap) (stdout : string) :
  main env lines empty_heap = (Returned h1, stdout) ->
  exists created,
    Forall2 (record_of_block env) (split_blocks lines).2 created
    /\ notes h1 = created
    /\ stdout
       = Str.join ""
           ((fun r => "found " +:+ Str.of_int (Z.of_nat (length created))
                      +:+ " tidy_notes" +:+ String Str.newline ""
                      +:+ repr env r +:+ String Str.newline "") <$> created)
    /\ (Forall not_header lines -> stdout = "").
Proof.
  unfold main. intros H.
  destruct (parse_tidy_output env lines empty_heap) as [h|e h] eqn:Hp;
    [|discriminate]. injection H as -> <-.
  destruct (split_blocks_spec lines) as (E & Hpre & Hok).
  pose proof Hp as Hp'. rewrite E in Hp'.
  pose proof (parse_returned_blocks _ _ _ _ _ Hok Hp') as Hc.
  apply records_exist in Hc as [created Hc]. exists created.
  rewrite (parse_blocks env _ _ created) in Hp' by (assumption || exact heap_wf_empty).
  injection Hp' as <-.
  assert (Hnotes : notes (extend empty_heap created) = created).
  { rewrite notes_extend by exact heap_wf_empty. reflexivity. }
  split; [assumption|]. split; [assumption|]. split.
  - unfold print_fixits. rewrite Hnotes, print_fixits_fold, str_app_nil_l.
    simpl tidy_notes. rewrite length_seq. reflexivity.
  - intros Hnone. rewrite (pass_without_header_loop env lines empty_heap Hnone) in Hp.
    apply (f_equal outcome_heap) in Hp. apply (f_equal objects) in Hp.
    simpl in Hp. subst created. reflexivity.
Qed.


Lemma main_prints_every_record_witness :
  exists created,
    Forall2 (record_of_block linux)
      (split_blocks ["a.cpp:1:2: warning: m [c]
"; "  x
"]).2 created
    /\ notes (outcome_heap (main linux ["a.cpp:1:2: warning: m [c]
"; "  x
"] empty_heap).1) = created
    /\ (main linux ["a.cpp:1:2: warning: m [c]
"; "  x
"] empty_heap).2
       = Str.join ""
           ((fun r => "found " +:+ Str.of_int (Z.of_nat (length created))
                      +:+ " tidy_notes" +:+ String Str.newline ""
                      +:+ repr linux r +:+ String Str.newline "") <$> created)
    /\ (Forall not_header ["a.cpp:1:2: warning: m [c]
"; "  x
"] -> (main linux ["a.cpp:1:2: warning: m [c]
"; "  x
"] empty_heap).2 = "").
Proof.
  apply (main_prints_every_record linux). vm_compute. reflexivity.
Defined.

Example main_example :
  (main linux ["a.cpp:1:2: warning: m [c]
"; "  x
"] empty_heap).2
  = "found 1 tidy_notes
<details open>
<summary><strong>a.cpp:1:2:</strong> warning: [c]

> m
</summary><p>

```.cpp
  x
```
</p>
</details>


".
Proof. vm_compute. reflexivity. Qed.

(** ** What every record keeps *)

Lemma all_but_last (q : ascii -> bool) s :
  Str.all q s = true -> Str.all q (Str.but_last s) = true.
Proof.
  induction s as [|a s IH]; [reflexivity|]. intros H.
  simpl in H. apply andb_true_iff in H as [Ha Hs].
  destruct s as [|b s]; [reflexivity|].
  change (Str.but_last (String a (String b s)))
    with (String a (Str.but_last (String b s))).
  simpl Str.all at 1. rewrite Ha. apply IH. assumption.
Qed.

(** X12: in every record that [__init__] builds, from a header line or
    not, the severity, the message and the check have no colon, the
    severity and the message have no white space at either end, the check
    has no newline, the filename has one colon at most, and none on a
    platform other than win32, and there are no excerpt lines yet. *)
Theorem record_fields_are_clean (env : Env) (l : string) (r : TidyNotification) :
  TidyNotification_init env l = Ok r ->
  Str.mem ":" (note_type r) = false
  /\ Str.mem ":" (note_info r) = false
  /\ Str.mem ":" (diagnostic r) = false
  /\ Str.strip (note_type r) = note_type r
  /\ Str.strip (note_info r) = note_info r
  /\ Str.mem Str.newline (diagnostic r) = false
  /\ (Str.count ":" (filename r) <= 1)%nat
  /\ (is_win32 env = false -> Str.mem ":" (filename r) = false)
  /\ fixit_lines r = [].
Proof.
  intros Hr. apply init_fields in Hr
    as (f & ln & cl & ty & info & d & Hs & Hd & Hdiag & Hinfo & Hty & _ & _ & Hf & Hfix).
  destruct (sliced_line_fields env l f _ Hs) as (Hrest & Hcount & Hwin).
  apply Forall_cons in Hrest as [_ Hrest]. apply Forall_cons in Hrest as [_ Hrest].
  apply Forall_cons in Hrest as [Cty Hrest]. apply Forall_cons in Hrest as [Cinfo _].
  pose proof (search_bracket_spec info) as Hspec. rewrite Hd in Hspec.
  destruct Hspec as (a & b & E & Hm & _).
  apply bracket_re_lang in Hm as (y & -> & Hy).
  assert (Ey : diagnostic r = y).
  { rewrite Hdiag. unfold Str.slice_1_m1. simpl Str.tail. apply but_last_snoc. }
  pose proof (count_replace ":" (os_getcwd env +:+ os_sep env) f) as Hle.
  rewrite <- Hf in Hle.
  split; [rewrite Hty; apply strip_no; assumption|].
  split.
  { rewrite Hinfo. apply strip_no. revert Cinfo. rewrite !mem_all. apply all_replace. }
  split.
  { rewrite Ey. rewrite E, !mem_app in Cinfo. simpl in Cinfo. rewrite mem_app in Cinfo.
    destruct (Str.mem ":" y); [|reflexivity].
    rewrite !orb_true_r in Cinfo. discriminate Cinfo. }
  split; [rewrite Hty; apply strip_idem|].
  split; [rewrite Hinfo; apply strip_idem|].
  split; [rewrite Ey; apply mem_all; exact Hy|].
  split; [lia|].
  split; [|exact Hfix].
  intros Hw. specialize (Hwin Hw). apply count_mem in Hwin. apply count_mem. lia.
Qed.

Lemma record_fields_are_clean_witness :
  Str.strip "warning" = "warning" /\ Str.strip "unused variable" = "unused variable".
Proof.
  destruct (record_fields_are_clean win
              "C:\src\file.cpp:12:5:  warning : unused variable  [check-x]
"
              {| diagnostic := "check-x"; filename := "C:\src\file.cpp"; line := 12;
                 cols := 5; note_type := "warning"; note_info := "unused variable";
                 fixit_lines := [] |})
    as (_ & _ & _ & H1 & H2 & _).
  - vm_compute. reflexivity.
  - split; [exact H1 | exact H2].
Defined.

(** ** What a pass keeps *)

Lemma notes_after_returned env lines h0 h1 :
  heap_wf h0 ->
  parse_tidy_output env lines h0 = Returned h1 ->
  exists created, notes h1 = notes h0 ++ created.
Proof.
  intros Hwf H. destruct (split_blocks_spec lines) as (E & Hpre & Hok).
  rewrite E in H.
  pose proof (parse_returned_blocks _ _ _ _ _ Hok H) as Hc.
  apply records_exist in Hc as [created Hc]. exists created.
  rewrite (parse_blocks env _ _ created) in H by assumption.
  injection H as <-. apply notes_extend. assumption.
Qed.

(** X13: whether a pass returns or raises, the records that were in
    [GlobalParser.tidy_notes] before it are there afterwards, first, in
    their order and unchanged: a pass only appends. *)
Theorem pass_keeps_earlier_notes (env : Env) (lines : list string) (h0 : Heap) :
  heap_wf h0 ->
  exists created,
    notes (outcome_heap (parse_tidy_output env lines h0)) = notes h0 ++ created.
Proof.
  intros Hwf. destruct (parse_tidy_output env lines h0) as [h1|e h1] eqn:H.
  - apply (notes_after_returned env lines); assumption.
  - apply parse_loop_raised in H as (before & l & after & _ & _ & _ & Hb).
    apply (notes_after_returned env before); assumption.
Qed.

Lemma pass_keeps_earlier_notes_witness :
  exists created,
    notes (outcome_heap
             (parse_tidy_output linux
                ["b.cpp:3:4: error: n [d]
"; "a.cpp:3:4: warning: use std::move [d]
"]
                (extend empty_heap
                   [ {| diagnostic := "c"; filename := "a.cpp"; line := 1; cols := 2;
                        note_type := "warning"; note_info := "m";
                        fixit_lines := [] |} ])))
    = notes (extend empty_heap
               [ {| diagnostic := "c"; filename := "a.cpp"; line := 1; cols := 2;
                    note_type := "warning"; note_info := "m";
                    fixit_lines := [] |} ]) ++ created.
Proof.
  apply (pass_keeps_earlier_notes linux). repeat constructor.
Defined.


(** ** Header lines, and the items of a line *)

(** X14: the lines that line 93 takes for header lines are exactly the
    lines [<path>:<line>:<col>:<ws><severity>:<message>[<check>]], with a
    path, a message and a check without a newline, two non-empty runs of
    decimal digits, one white-space character and a non-empty run of word
    characters, ended or not by one newline. *)
Theorem header_lines_have_the_shape (l : string) :
  is_header l = true <->
  exists path ln col ws sev msg id eol,
    l = (path +:+ ":" +:+ ln +:+ ":" +:+ col +:+ ":" +:+ String ws sev +:+ ":"
         +:+ msg +:+ "[" +:+ id +:+ "]") +:+ eol
    /\ Str.all Regex.dot path = true
    /\ ln <> "" /\ Str.all Regex.digit ln = true
    /\ col <> "" /\ Str.all Regex.digit col = true
    /\ Regex.space ws = true
    /\ sev <> "" /\ Str.all Regex.word sev = true
    /\ Str.all Regex.dot msg = true
    /\ Str.all Regex.dot id = true
    /\ is_eol eol.
Proof.
  rewrite is_header_lang. split.
  - intros [H | (t & -> & H)]; apply header_body_lang in H
      as (path & ln & col & ws & sev & msg & id & -> & H).
    + exists path, ln, col, ws, sev, msg, id, "".
      rewrite str_app_nil_r. split; [reflexivity|].
      repeat (split; [apply H|]). left. reflexivity.
    + exists path, ln, col, ws, sev, msg, id, (String Str.newline "").
      split; [reflexivity|].
      repeat (split; [apply H|]). right. reflexivity.
  - intros (path & ln & col & ws & sev & msg & id & eol & -> & Hp & Hl1 & Hl2 & Hc1
            & Hc2 & Hws & Hs1 & Hs2 & Hm & Hi & Heol).
    assert (H : Regex.lang header_body
                  (path +:+ ":" +:+ ln +:+ ":" +:+ col +:+ ":" +:+ String ws sev
                   +:+ ":" +:+ msg +:+ "[" +:+ id +:+ "]")).
    { apply header_body_lang. do 7 eexists. split; [reflexivity|].
      repeat split; assumption. }
    destruct Heol as [-> | ->].
    + left. rewrite str_app_nil_r. exact H.
    + right. eexists. split; [reflexivity | exact H].
Qed.

Lemma header_lines_have_the_shape_witness :
  exists path ln col ws sev msg id eol,
    "a.cpp:1:2: warning: m [c]" =
      (path +:+ ":" +:+ ln +:+ ":" +:+ col +:+ ":" +:+ String ws sev +:+ ":"
       +:+ msg +:+ "[" +:+ id +:+ "]") +:+ eol
    /\ Str.all Regex.dot path = true
    /\ ln <> "" /\ Str.all Regex.digit ln = true
    /\ col <> "" /\ Str.all Regex.digit col = true
    /\ Regex.space ws = true
    /\ sev <> "" /\ Str.all Regex.word sev = true
    /\ Str.all Regex.dot msg = true
    /\ Str.all Regex.dot id = true
    /\ is_eol eol.
Proof.
  apply (proj1 (header_lines_have_the_shape "a.cpp:1:2: warning: m [c]")).
  vm_compute. reflexivity.
Defined.

Lemma join_cons_cons sep x y l :
  Str.join sep (x :: y :: l) = x +:+ sep +:+ Str.join sep (y :: l).
Proof. reflexivity. Qed.

(** [sep.join(s.split(sep)) == s] *)
Lemma join_split c s : Str.join (String c "") (Str.split c s) = s.
Proof.
  induction s as [|d s IH]; [reflexivity|]. simpl Str.split.
  destruct (Ascii.eqb d c) eqn:E.
  - apply Ascii.eqb_eq in E. subst d.
    destruct (Str.split c s) as [|f fs] eqn:Es; [destruct (split_nonempty c s Es)|].
    rewrite join_cons_cons, IH. reflexivity.
  - destruct (Str.split c s) as [|f fs] eqn:Es; [destruct (split_nonempty c s Es)|].
    destruct fs as [|g fs].
    + simpl in *. rewrite IH. reflexivity.
    + rewrite join_cons_cons in *. rewrite str_app_cons, IH. reflexivity.
Qed.

(** X15: the items of a line, joined with colons, are the line again,
    whether the first two were joined on win32 or not: the split and the
    merge lose no character and move none. *)
Theorem sliced_line_joins_back (env : Env) (l : string) :
  Str.join ":" (sliced_line env l) = l.
Proof.
  unfold sliced_line. pose proof (join_split ":" l) as H.
  destruct (is_win32 env && (5 <? length (Str.split ":" l))%nat) eqn:E; [|exact H].
  apply andb_true_iff in E as [_ E]. apply Nat.ltb_lt in E.
  destruct (Str.split ":" l) as [|s0 [|s1 [|s2 rest]]]; simpl in E; try lia.
  rewrite <- H. simpl nth. simpl drop. cbn [app].
  rewrite !join_cons_cons. str_norm. reflexivity.
Qed.


(** ** Examples *)

Example split_examples :
  Str.split ":" "a:b::c" = ["a"; "b"; ""; "c"]
  /\ Str.split ":" "" = [""]
  /\ Str.split ":" ":" = [""; ""].
Proof. repeat split; reflexivity. Qed.

Example replace_examples :
  Str.replace "/w/" "" "//w/w/x" = "/w/x"
  /\ Str.replace "aa" "" "aaa" = "a"
  /\ Str.replace "" "" "abc" = "abc"
  /\ Str.replace "ab" "xy" "cabab-ab" = "cxyxy-xy".
Proof. repeat split; reflexivity. Qed.

Example strip_examples :
  Str.strip "  a b
" = "a b" /\ Str.strip " " = "" /\ Str.strip "a" = "a".
Proof. repeat split; reflexivity. Qed.

Example int_examples :
  Str.int " 12 " = Some 12 /\ Str.int "1_0" = Some 10
  /\ Str.int "_1" = None /\ Str.int "1__0" = None /\ Str.int "-0012" = Some (-12)
  /\ Str.int "+ 1" = None /\ Str.int "" = None /\ Str.int "1_" = None
  /\ Str.int "12a" = None /\ Str.int " warning" = None.
Proof. repeat split; reflexivity. Qed.

Example of_int_examples :
  Str.of_int 0 = "0" /\ Str.of_int 1203 = "1203" /\ Str.of_int (-45) = "-45"
  /\ Str.of_int 10 = "10" /\ Str.of_int 4294967296 = "4294967296".
Proof. repeat split; reflexivity. Qed.

Example format_examples :
  Str.format "a{}b{}" ["X"; "{}"] = Some "aXb{}"
  /\ Str.format "{{{}}}" ["X"] = Some "{X}"
  /\ Str.format "{}{}" ["X"] = None.
Proof. repeat split; reflexivity. Qed.

Example search_bracket_examples :
  Regex.search_bracket " unused variable [check-x]
" = Some "[check-x]"
  /\ Regex.search_bracket " use [a] or [b]" = Some "[a] or [b]"
  /\ Regex.search_bracket " no bracket ]" = None
  /\ Regex.search_bracket "[
[a]x]" = Some "[a]x]".
Proof. repeat split; reflexivity. Qed.

Example is_header_examples :
  is_header "a.cpp:1:2: warning: m [c]" = true
  /\ is_header "a.cpp:1:2: warning: m [c]
" = true
  /\ is_header "a.cpp:1:2: warning: m [c] " = false
  /\ is_header "a.cpp:1:2:  warning: m [c]" = false
  /\ is_header "a.cpp:1:x: warning: m [c]" = false
  /\ is_header "  int x[3];
" = false.
Proof. repeat split; vm_compute; reflexivity. Qed.

(** The two header lines of the specification's section 8 *)
Example init_examples :
  TidyNotification_init win "C:\src\file.cpp:12:5: warning: unused variable [check-x]"
  = Ok {| diagnostic := "check-x"; filename := "C:\src\file.cpp"; line := 12;
          cols := 5; note_type := "warning"; note_info := "unused variable";
          fixit_lines := [] |}
  /\ TidyNotification_init linux "/src/file.cpp:12:5: error: bad thing [check-y]"
  = Ok {| diagnostic := "check-y"; filename := "/src/file.cpp"; line := 12;
          cols := 5; note_type := "error"; note_info := "bad thing";
          fixit_lines := [] |}
  /\ TidyNotification_init linux "a.cpp:1:2: warning: no bracket" = Raise AttributeError
  /\ TidyNotification_init linux "a.cpp:1:2: warning: std::move [c]" = Raise ValueError
  /\ TidyNotification_init linux "a.cpp:x:2: warning: m [c]" = Raise ValueError
  /\ TidyNotification_init linux "a.cpp:1:2: warning: m ]c[" = Raise AttributeError.
Proof. repeat split; vm_compute; reflexivity. Qed.
